(** * Joulecoin proof of work: a shallow embedding of [src/pow.cpp]

    The functions of [pow.cpp] are embedded as Rocq functions over [Z]:

    - fixed-width integers are integers with their wrap-around written out
      ([arith_uint256] modulo [2^256], [int64_t] and [int] in two's
      complement);
    - a [CBlockIndex] is an inductive record whose [pprev] is an optional
      predecessor, so a null pointer is [None];
    - a C++ execution that faults (a failed [assert], a division by zero
      inside [arith_uint256], a [%] by zero) is [None] in the [option]
      monad. *)

From Stdlib Require Import ZArith Lia Bool List String.
Import ListNotations.
Local Open Scope Z_scope.

(** ** Fixed-width integers *)

Module Int.

(** Reduction of an integer to a signed [w]-bit two's complement value. *)
Definition to_signed (w : Z) (x : Z) : Z :=
  (x + 2 ^ (w - 1)) mod 2 ^ w - 2 ^ (w - 1).

Definition to_int32 (x : Z) : Z := to_signed 32 x.
Definition to_int64 (x : Z) : Z := to_signed 64 x.
Definition to_uint32 (x : Z) : Z := x mod 2 ^ 32.
Definition to_uint64 (x : Z) : Z := x mod 2 ^ 64.

Definition int64_max : Z := 2 ^ 63 - 1.

Definition in_int32 (x : Z) : Prop := - 2 ^ 31 <= x < 2 ^ 31.
Definition in_int64 (x : Z) : Prop := - 2 ^ 63 <= x < 2 ^ 63.

End Int.

(** ** The fault monad *)

Definition bind {A B : Type} (m : option A) (k : A -> option B) : option B :=
  match m with
  | Some a => k a
  | None => None
  end.

Notation "x <- m ;; k" := (bind m (fun x => k))
  (at level 61, m at next level, right associativity).

(** ** [arith_uint256]

    Modelled from the spec: the class [arith_uint256] ([arith_uint256.h] and
    [arith_uint256.cpp] are not among the sources).  The spec asks for
    "256-bit unsigned arithmetic" with multiply, divide, bit count and
    complement (sections 3, 4.3, 4.4 and 9); a value is an integer in
    [0, 2^256) and every operation is reduced modulo [2^256].  Division by
    zero has no value. *)

Module Arith256.

Definition modulus : Z := 2 ^ 256.

Definition norm (x : Z) : Z := x mod modulus.

Definition add (a b : Z) : Z := norm (a + b).
Definition sub (a b : Z) : Z := norm (a - b).
Definition mul (a b : Z) : Z := norm (a * b).
Definition lnot (a : Z) : Z := norm (Z.lnot a).
Definition shl (a k : Z) : Z := norm (Z.shiftl a k).
Definition shr (a k : Z) : Z := Z.shiftr a k.

Definition div (a b : Z) : option Z :=
  if b =? 0 then None else Some (a / b).

(** [bits()]: position of the highest set bit plus one, [0] for zero. *)
Definition bits (a : Z) : Z :=
  if a <=? 0 then 0 else Z.log2 a + 1.

Definition GetLow64 (a : Z) : Z := a mod 2 ^ 64.

End Arith256.

(** ** Compact target codec

    Modelled from the spec: [SetCompact] and [GetCompact] of
    [arith_uint256] (not among the sources), after section 4.1 and the wire
    format of section 6: the top byte is the number of significant bytes,
    the low three bytes are the mantissa, bit 23 is the sign; the decode is
    negative when that bit is set on a nonzero mantissa and an overflow when
    the exponent puts a nonzero mantissa beyond 256 bits. *)

Record Decoded : Type := mkDecoded {
  magnitude : Z;
  fNegative : bool;
  fOverflow : bool
}.

Definition SetCompact (nCompact : Z) : Decoded :=
  let nSize := Z.shiftr nCompact 24 in
  let nWord := Z.land nCompact 0x007fffff in
  let nWord' := if nSize <=? 3 then Z.shiftr nWord (8 * (3 - nSize)) else nWord in
  let value :=
    if nSize <=? 3 then nWord'
    else Arith256.shl nWord (8 * (nSize - 3)) in
  mkDecoded value
    (negb (nWord' =? 0) && negb (Z.land nCompact 0x00800000 =? 0))
    (negb (nWord' =? 0) &&
       ((34 <? nSize)
        || ((0xff <? nWord') && (33 <? nSize))
        || ((0xffff <? nWord') && (32 <? nSize)))).

Definition GetCompact (a : Z) : Z :=
  let nSize := (Arith256.bits a + 7) / 8 in
  let nCompact :=
    if nSize <=? 3
    then Int.to_uint32 (Z.shiftl (Arith256.GetLow64 a) (8 * (3 - nSize)))
    else Int.to_uint32 (Arith256.GetLow64 (Arith256.shr a (8 * (nSize - 3)))) in
  let '(nCompact, nSize) :=
    if Z.land nCompact 0x00800000 =? 0
    then (nCompact, nSize)
    else (Z.shiftr nCompact 8, nSize + 1) in
  Z.lor nCompact (Z.shiftl nSize 24).

(** ** Chain view and consensus parameters *)

(** [CBlockIndex] ([chain.h], not among the sources): the fields [pow.cpp]
    reads.  [nHeight] is an [int], [nTime] and [nBits] are 32-bit unsigned,
    [nChainWork] is an [arith_uint256]; [pprev] is the back pointer. *)
#[warnings="-register-all"]
Inductive CBlockIndex : Type := mkBlockIndex {
  pprev : option CBlockIndex;
  nHeight : Z;
  nTime : Z;
  nBits : Z;
  nChainWork : Z
}.

(** [CBlockHeader] ([primitives/block.h]): only its time stamp is read. *)
Record CBlockHeader : Type := mkBlockHeader {
  hdr_nTime : Z
}.

(** [Consensus::Params] ([consensus/params.h], not among the sources).
    Modelled from the spec: [DifficultyAdjustmentInterval] is the
    "adjustment-interval length" of section 3, kept as a field. *)
Record Params : Type := mkParams {
  powLimit : Z;
  fPowAllowMinDifficultyBlocks : bool;
  fPowNoRetargeting : bool;
  nPowTargetSpacing : Z;
  DifficultyAdjustmentInterval : Z
}.

(** [GetBlockTime()] widens the unsigned 32-bit [nTime] to [int64_t]. *)
Definition GetBlockTime (b : CBlockIndex) : Z := nTime b.
Definition header_GetBlockTime (h : CBlockHeader) : Z := hdr_nTime h.

(** ** Constants of [pow.cpp]; [÷] is the truncating division of C++. *)

Definition nTargetTimespan : Z := 45.
Definition nTargetSpacing : Z := 45.
Definition nInterval : Z := nTargetTimespan ÷ nTargetSpacing.

Definition nHeightVer2 : Z := 32000.
Definition nHeightVer3 : Z := 90000.

Definition nAveragingInterval1 : Z := nInterval * 160.
Definition nAveragingTargetTimespan1 : Z := nAveragingInterval1 * nTargetSpacing.

Definition nAveragingInterval2 : Z := nInterval * 8.
Definition nAveragingTargetTimespan2 : Z := nAveragingInterval2 * nTargetSpacing.

Definition nAveragingInterval3 : Z := nAveragingInterval2.
Definition nAveragingTargetTimespan3 : Z := nAveragingTargetTimespan2.

Definition nMaxAdjustDown1 : Z := 10.
Definition nMaxAdjustUp1 : Z := 1.

Definition nMaxAdjustDown2 : Z := 1.
Definition nMaxAdjustUp2 : Z := 1.

Definition nMaxAdjustDown3 : Z := 3.
Definition nMaxAdjustUp3 : Z := 1.

Definition nMinActualTimespan1 : Z := nAveragingTargetTimespan1 * (100 - nMaxAdjustUp1) ÷ 100.
Definition nMaxActualTimespan1 : Z := nAveragingTargetTimespan1 * (100 + nMaxAdjustDown1) ÷ 100.

Definition nMinActualTimespan2 : Z := nAveragingTargetTimespan2 * (100 - nMaxAdjustUp2) ÷ 100.
Definition nMaxActualTimespan2 : Z := nAveragingTargetTimespan2 * (100 + nMaxAdjustDown2) ÷ 100.

Definition nMinActualTimespan3 : Z := nAveragingTargetTimespan3 * (100 - nMaxAdjustUp3) ÷ 100.
Definition nMaxActualTimespan3 : Z := nAveragingTargetTimespan3 * (100 + nMaxAdjustDown3) ÷ 100.

(** ** [CalculateNextWorkRequired] *)

(** The candidate height [pindexLast->nHeight+1], an [int] addition. *)
Definition candidateHeight (pindexLast : CBlockIndex) : Z :=
  Int.to_int32 (nHeight pindexLast + 1).

(** The era selection of lines 118-138:
    [(nMinActualTimespan, nMaxActualTimespan, nAveragingTargetTimespan)]. *)
Definition eraTimespans (pindexLast : CBlockIndex) : Z * Z * Z :=
  if nHeightVer3 <=? candidateHeight pindexLast then
    (nMinActualTimespan3, nMaxActualTimespan3, nAveragingTargetTimespan3)
  else if nHeightVer2 <=? candidateHeight pindexLast then
    (nMinActualTimespan2, nMaxActualTimespan2, nAveragingTargetTimespan2)
  else
    (nMinActualTimespan1, nMaxActualTimespan1, nAveragingTargetTimespan1).

(** "Limit adjustment step", lines 141-146: the two successive [if]s. *)
Definition limitAdjustmentStep (nMin nMax nActualTimespan : Z) : Z :=
  let t := if nActualTimespan <? nMin then nMin else nActualTimespan in
  if nMax <? t then nMax else t.

(** The value of [nActualTimespan] after line 146. *)
Definition nActualTimespanLimited (pindexLast : CBlockIndex) (nFirstBlockTime : Z) : Z :=
  let '(nMin, nMax, _) := eraTimespans pindexLast in
  limitAdjustmentStep nMin nMax
    (Int.to_int64 (GetBlockTime pindexLast - nFirstBlockTime)).

(** [LogPrintf] only writes to the debug log and is left out. *)
Definition CalculateNextWorkRequired
    (pindexLast : CBlockIndex) (nFirstBlockTime : Z) (params : Params) : option Z :=
  if fPowNoRetargeting params then Some (nBits pindexLast)
  else
    let '(_, _, nAveragingTargetTimespan) := eraTimespans pindexLast in
    let nActualTimespan := nActualTimespanLimited pindexLast nFirstBlockTime in
    let bnPowLimit := powLimit params in
    let bnNew := magnitude (SetCompact (nBits pindexLast)) in
    let bnNew := Arith256.mul bnNew nActualTimespan in
    bnNew <- Arith256.div bnNew nAveragingTargetTimespan ;;
    let bnNew := if bnPowLimit <? bnNew then bnPowLimit else bnNew in
    Some (GetCompact bnNew).

(** ** [GetNextWorkRequired] *)

(** [a % b] on [int64_t]; undefined for a zero divisor. *)
Definition int64_rem (a b : Z) : option Z :=
  if b =? 0 then None else Some (Z.rem a b).

(** The loop of lines 76-77: the last block that was not mined under the
    special minimum-difficulty rule. *)
Fixpoint lastNonSpecial (interval nProofOfWorkLimit : Z) (pindex : CBlockIndex)
    : option CBlockIndex :=
  match pindex with
  | mkBlockIndex None _ _ _ _ => Some pindex
  | mkBlockIndex (Some prev) h _ bits _ =>
      r <- int64_rem h interval ;;
      if negb (r =? 0) && (bits =? nProofOfWorkLimit)
      then lastNonSpecial interval nProofOfWorkLimit prev
      else Some pindex
  end.

(** The loop of lines 102-103, run for [n] iterations. *)
Fixpoint goBack (n : nat) (pindexFirst : option CBlockIndex) : option CBlockIndex :=
  match n, pindexFirst with
  | S n', Some b => goBack n' (pprev b)
  | _, _ => pindexFirst
  end.

Definition eraAveragingInterval (pindexLast : CBlockIndex) : Z :=
  if nHeightVer3 <=? candidateHeight pindexLast then nAveragingInterval3
  else if nHeightVer2 <=? candidateHeight pindexLast then nAveragingInterval2
  else nAveragingInterval1.

Definition GetNextWorkRequired
    (pindexLast : option CBlockIndex) (pblock : CBlockHeader) (params : Params)
    : option Z :=
  let nProofOfWorkLimit := GetCompact (powLimit params) in
  match pindexLast with
  | None => Some nProofOfWorkLimit
  | Some tip =>
      if candidateHeight tip <? nAveragingInterval1 then Some nProofOfWorkLimit
      else if fPowAllowMinDifficultyBlocks params then
        if Int.to_int64 (GetBlockTime tip + Int.to_int64 (nPowTargetSpacing params * 2))
             <? header_GetBlockTime pblock
        then Some nProofOfWorkLimit
        else
          pindex <- lastNonSpecial (DifficultyAdjustmentInterval params)
                      nProofOfWorkLimit tip ;;
          Some (nBits pindex)
      else
        let nAveragingInterval := eraAveragingInterval tip in
        match goBack (Z.to_nat (nAveragingInterval - 1)) (Some tip) with
        | None => None
        | Some pindexFirst =>
            CalculateNextWorkRequired tip (GetBlockTime pindexFirst) params
        end
  end.

(** ** [CheckProofOfWork] *)

(** [error(msg)] logs [msg] and yields [false]. *)
Definition error (msg : string) : bool * list string := (false, [msg]).

Definition CheckProofOfWork_log (hash nBits : Z) (params : Params)
    : bool * list string :=
  let d := SetCompact nBits in
  let bnTarget := magnitude d in
  if fNegative d || (bnTarget =? 0) || fOverflow d || (powLimit params <? bnTarget)
  then error "CheckProofOfWork(): nBits below minimum work"
  else if bnTarget <? hash
  then error "CheckProofOfWork(): hash doesn't match nBits"
  else (true, []).

Definition CheckProofOfWork (hash nBits : Z) (params : Params) : bool :=
  fst (CheckProofOfWork_log hash nBits params).

(** ** [GetBlockProof] and [GetBlockProofEquivalentTime] *)

Definition GetBlockProof (block : CBlockIndex) : option Z :=
  let d := SetCompact (nBits block) in
  let bnTarget := magnitude d in
  if fNegative d || fOverflow d || (bnTarget =? 0) then Some 0
  else
    q <- Arith256.div (Arith256.lnot bnTarget) (Arith256.add bnTarget 1) ;;
    Some (Arith256.add q 1).

Definition GetBlockProofEquivalentTime
    (to from tip : CBlockIndex) (params : Params) : option Z :=
  let '(r, sign) :=
    if nChainWork from <? nChainWork to
    then (Arith256.sub (nChainWork to) (nChainWork from), 1)
    else (Arith256.sub (nChainWork from) (nChainWork to), -1) in
  proof <- GetBlockProof tip ;;
  r <- Arith256.div
         (Arith256.mul r (Int.to_uint64 (nPowTargetSpacing params))) proof ;;
  if 63 <? Arith256.bits r
  then Some (Int.to_int64 (sign * Int.int64_max))
  else Some (Int.to_int64 (Int.to_uint64 (Int.to_uint64 sign * Arith256.GetLow64 r))).

(** ** Vocabulary of the statements *)

(** The chain seen from an entry: the entry, its predecessor, and so on
    down to the entry without predecessor. *)
Fixpoint ancestors (b : CBlockIndex) : list CBlockIndex :=
  match b with
  | mkBlockIndex None _ _ _ _ => [b]
  | mkBlockIndex (Some prev) _ _ _ _ => b :: ancestors prev
  end.

(** The entry without predecessor at the end of the chain. *)
Fixpoint rootOf (b : CBlockIndex) : CBlockIndex :=
  match b with
  | mkBlockIndex None _ _ _ _ => b
  | mkBlockIndex (Some prev) _ _ _ _ => rootOf prev
  end.

(** The loop condition of line 76, as a proposition on one entry. *)
Definition specialMinDifficulty (interval nProofOfWorkLimit : Z) (e : CBlockIndex) : Prop :=
  pprev e <> None /\ ~ (interval | nHeight e) /\ nBits e = nProofOfWorkLimit.

(** A compact target is usable when it decodes without the negative flag,
    without the overflow flag and to a nonzero magnitude. *)
Definition validTarget (d : Decoded) : bool :=
  negb (fNegative d || fOverflow d || (magnitude d =? 0)).

(** The clamp table as section 4.4 of the specification words it: the
    "max shrink" and "max grow" percentages of each era, and the interval
    [[T*(100-shrink)/100, T*(100+grow)/100]] they give. *)
Definition specShrinkGrow (height : Z) : Z * Z * Z :=
  if height <? 32000 then (160 * 45, 10, 1)
  else if height <? 90000 then (8 * 45, 1, 1)
  else (8 * 45, 3, 1).

Definition specClampInterval (height : Z) : Z * Z :=
  let '(T, shrink, grow) := specShrinkGrow height in
  (T * (100 - shrink) / 100, T * (100 + grow) / 100).

(** The retarget as section 4.4 words it: the product is taken exactly
    (it "must not overflow"), then divided, then capped by [powLimit]. *)
Definition specNewTarget (pindexLast : CBlockIndex) (nFirstBlockTime : Z) (params : Params) : Z :=
  let '(_, _, T) := eraTimespans pindexLast in
  Z.min (powLimit params)
    (magnitude (SetCompact (nBits pindexLast))
       * nActualTimespanLimited pindexLast nFirstBlockTime / T).

(** The two branches of lines 207-212: the magnitude of the difference in
    chain work and its sign. *)
Definition workDifference (to from : CBlockIndex) : Z :=
  if nChainWork from <? nChainWork to
  then Arith256.sub (nChainWork to) (nChainWork from)
  else Arith256.sub (nChainWork from) (nChainWork to).

Definition workSign (to from : CBlockIndex) : Z :=
  if nChainWork from <? nChainWork to then 1 else -1.

(** The magnitude [r] of line 213, given the work [proof] of the tip. *)
Definition equivalentTimeMagnitude (to from : CBlockIndex) (params : Params) (proof : Z) : Z :=
  Arith256.mul (workDifference to from) (Int.to_uint64 (nPowTargetSpacing params)) / proof.

(** The value handed back at lines 214-217: the saturated magnitude. *)
Definition saturated (r : Z) : Z :=
  if 63 <? Arith256.bits r then Int.int64_max else r.

(** A chain view whose heights are consistent with its links: the entry
    without predecessor is at height 0 and every other entry is one above
    its predecessor. *)
Fixpoint wfChain (b : CBlockIndex) : Prop :=
  match b with
  | mkBlockIndex None h _ _ _ => h = 0
  | mkBlockIndex (Some prev) h _ _ _ => h = nHeight prev + 1 /\ wfChain prev
  end.

(** The magnitude as the specification words it: the exact quotient
    [|to.nChainWork - from.nChainWork| * nPowTargetSpacing / proof], with
    no reduction of the product. *)
Definition specEquivalentTimeMagnitude
    (to from : CBlockIndex) (params : Params) (proof : Z) : Z :=
  Z.abs (nChainWork to - nChainWork from) * nPowTargetSpacing params / proof.

(** ** Sample inputs *)

Definition genesisEntry : CBlockIndex := mkBlockIndex None 0 1380000000 0x1e0fffff 1.

(** An era-1 tip at height 200 (candidate 201) on top of [genesisEntry]. *)
Definition tipEra1 : CBlockIndex :=
  mkBlockIndex (Some genesisEntry) 200 1380008000 0x1e0fffff 1000.

(** An era-3 tip at height 90000. *)
Definition tipEra3 : CBlockIndex :=
  mkBlockIndex (Some genesisEntry) 90000 1380008000 0x1e0fffff 1000.

(** An era-1 tip whose target [0x7fffff * 2^232] is close to [2^255]. *)
Definition tipWide : CBlockIndex :=
  mkBlockIndex (Some genesisEntry) 200 1380007200 0x207fffff 1000.

(** Entries that differ by [2^200 - 1] units of chain work. *)
Definition heavyEntry : CBlockIndex :=
  mkBlockIndex (Some genesisEntry) 1 1380000045 0x1e0fffff (2 ^ 200).

(** Entries whose targets are [0x0ffffe * 2^216] and its half. *)
Definition easyEntry : CBlockIndex := mkBlockIndex None 0 1380000000 0x1e0ffffe 1.
Definition hardEntry : CBlockIndex := mkBlockIndex None 0 1380000000 0x1e07ffff 1.

(** An entry whose compact target has the sign bit set. *)
Definition negativeEntry : CBlockIndex := mkBlockIndex None 0 1380000000 0x1e8fffff 1.

(** A test-network chain of [n + 1] entries at heights [0] to [n], 45
    seconds apart: the entries above height 200 carry the minimum-difficulty
    target of [testnetParams], the others [0x1d00ffff]. *)
Fixpoint sampleChain (n : nat) : CBlockIndex :=
  match n with
  | O => mkBlockIndex None 0 1380000000 0x1d00ffff 1
  | S n' =>
      mkBlockIndex (Some (sampleChain n')) (Z.of_nat n)
        (1380000000 + 45 * Z.of_nat n)
        (if 200 <? Z.of_nat n then 0x1e0fffff else 0x1d00ffff)
        (Z.of_nat n + 1)
  end.

(** A view of [n + 1] entries below height [top], exactly
    [nTargetSpacing] apart, all with target [0x1d00ffff]. *)
Fixpoint scheduleChain (top : Z) (n : nat) : CBlockIndex :=
  mkBlockIndex
    (match n with
     | O => None
     | S n' => Some (scheduleChain (top - 1) n')
     end)
    top (1380000000 + nTargetSpacing * top) 0x1d00ffff (top + 1).

(** Main-network-like parameters with the usual [0x1d00ffff] limit. *)
Definition mainParams : Params :=
  mkParams (0x00ffff * 2 ^ 208) false false 45 1.

(** An entry ten blocks of [tipEra1]-difficulty work ahead of
    [genesisEntry]. *)
Definition tenBlocksAhead : CBlockIndex :=
  mkBlockIndex (Some genesisEntry) 10 1380000450 0x1e0fffff (1 + 10 * 1048577).

(** Two entries whose chain work differs by just over [2^256 / 45]: the
    difference times the 45-second spacing is [2^256 + 100 * 1048577] and a
    little, beyond 256 bits. *)
Definition wrapFrom : CBlockIndex := mkBlockIndex None 0 1380000000 0x1e0fffff 0.
Definition wrapTo : CBlockIndex :=
  mkBlockIndex (Some wrapFrom) 1 1380000045 0x1e0fffff
    ((2 ^ 256 + 100 * 1048577) / 45 + 1).

(** Entries with the targets 2 and 1. *)
Definition tinyEasyEntry : CBlockIndex := mkBlockIndex None 0 1380000000 0x01020000 1.
Definition tinyHardEntry : CBlockIndex := mkBlockIndex None 0 1380000000 0x01010000 1.

Definition sampleParams : Params :=
  mkParams (0x0fffff * 2 ^ 216) false false 45 1.

Definition wideParams : Params :=
  mkParams (2 ^ 255 - 1) false false 45 1.

Definition testnetParams : Params :=
  mkParams (0x0fffff * 2 ^ 216) true false 45 2016.

(** * Properties *)

(** ** The model on concrete inputs *)

Example SetCompact_1e0fffff :
  SetCompact 0x1e0fffff = mkDecoded (0x0fffff * 2 ^ 216) false false.
Proof. vm_compute. reflexivity. Qed.

Example GetCompact_roundtrip_1e0fffff :
  GetCompact (0x0fffff * 2 ^ 216) = 0x1e0fffff.
Proof. vm_compute. reflexivity. Qed.

Example SetCompact_negative :
  SetCompact 0x1e8fffff = mkDecoded (0x0fffff * 2 ^ 216) true false.
Proof. vm_compute. reflexivity. Qed.

Example SetCompact_overflow :
  fOverflow (SetCompact 0x23000001) = true.
Proof. vm_compute. reflexivity. Qed.

(** Era 1, a full window: 159 steps back from height 203, an actual
    timespan of [159 * 45 = 7155] seconds, inside [[7128, 7920]]. *)
Example GetNextWorkRequired_era1 :
  GetNextWorkRequired (Some (sampleChain 203)) (mkBlockHeader 1380009180) sampleParams
    = Some (GetCompact (0x0fffff * 2 ^ 216 * 7155 / 7200)).
Proof. vm_compute. reflexivity. Qed.

(** A chain view shorter than the window fails the assertion of line 104. *)
Example GetNextWorkRequired_short_chain :
  GetNextWorkRequired (Some tipEra1) (mkBlockHeader 1380008045) sampleParams = None.
Proof. vm_compute. reflexivity. Qed.

(** With retargeting disabled the tip's target is handed back. *)
Example CalculateNextWorkRequired_no_retargeting :
  CalculateNextWorkRequired tipEra1 1380000000 (mkParams (2 ^ 255 - 1) false true 45 1)
    = Some 0x1e0fffff.
Proof. reflexivity. Qed.

Example CheckProofOfWork_at_target :
  CheckProofOfWork (0x0fffff * 2 ^ 216) 0x1e0fffff sampleParams = true
  /\ CheckProofOfWork (0x0fffff * 2 ^ 216 + 1) 0x1e0fffff sampleParams = false
  /\ CheckProofOfWork 0 0x23000001 sampleParams = false.
Proof. vm_compute. repeat split. Qed.

(** The work at [0x0ffffe * 2^216] and at its half. *)
Example GetBlockProof_halved_target :
  magnitude (SetCompact (nBits hardEntry)) = magnitude (SetCompact (nBits easyEntry)) / 2
  /\ GetBlockProof easyEntry = Some 1048578
  /\ GetBlockProof hardEntry = Some 2097156.
Proof. vm_compute. repeat split. Qed.


(** ** Fixed-width integers *)

Lemma to_int32_small (x : Z) : Int.in_int32 x -> Int.to_int32 x = x.
Proof.
  unfold Int.in_int32, Int.to_int32, Int.to_signed. intros Hx.
  rewrite Z.mod_small; lia.
Qed.

Lemma to_int64_small (x : Z) : Int.in_int64 x -> Int.to_int64 x = x.
Proof.
  unfold Int.in_int64, Int.to_int64, Int.to_signed. intros Hx.
  rewrite Z.mod_small; lia.
Qed.

Lemma to_int64_range (x : Z) : Int.in_int64 (Int.to_int64 x).
Proof.
  unfold Int.in_int64, Int.to_int64, Int.to_signed.
  pose proof (Z.mod_pos_bound (x + 2 ^ (64 - 1)) (2 ^ 64)). lia.
Qed.

Lemma to_int64_to_uint64 (x : Z) : Int.to_int64 (Int.to_uint64 x) = Int.to_int64 x.
Proof.
  unfold Int.to_int64, Int.to_uint64, Int.to_signed.
  rewrite Zplus_mod_idemp_l. reflexivity.
Qed.

Lemma to_uint64_mul_l (a b : Z) :
  Int.to_uint64 (Int.to_uint64 a * b) = Int.to_uint64 (a * b).
Proof. unfold Int.to_uint64. apply Zmult_mod_idemp_l. Qed.

(** ** [arith_uint256] *)

Lemma modulus_pos : 0 < Arith256.modulus.
Proof. reflexivity. Qed.

Lemma norm_range (x : Z) : 0 <= Arith256.norm x < Arith256.modulus.
Proof. apply Z.mod_pos_bound, modulus_pos. Qed.

Lemma norm_small (x : Z) : 0 <= x < Arith256.modulus -> Arith256.norm x = x.
Proof. apply Z.mod_small. Qed.

Lemma div_nonzero (a b : Z) : b <> 0 -> Arith256.div a b = Some (a / b).
Proof.
  intros Hb. unfold Arith256.div.
  destruct (Z.eqb_spec b 0); [contradiction | reflexivity].
Qed.

Lemma bits_le_63 (r : Z) : 0 <= r -> Arith256.bits r <= 63 -> r < 2 ^ 63.
Proof.
  unfold Arith256.bits. intros Hr Hb.
  destruct (Z.leb_spec r 0); [lia |].
  apply Z.log2_lt_pow2; lia.
Qed.

(** ** The genesis guard *)

(** C4. [GetNextWorkRequired] answers the compact encoding of [powLimit]
    whenever there is no tip (the genesis case) or the candidate height,
    tip height plus one, is below 160, the length of the era-1 averaging
    window. *)
Theorem GetNextWorkRequired_genesis_guard
    (pindexLast : option CBlockIndex) (pblock : CBlockHeader) (params : Params) :
  pindexLast = None
  \/ (exists tip, pindexLast = Some tip
                  /\ Int.in_int32 (nHeight tip) /\ nHeight tip + 1 < 160) ->
  GetNextWorkRequired pindexLast pblock params = Some (GetCompact (powLimit params)).
Proof.
  intros [-> | (tip & -> & Hint & Hlow)]; [reflexivity |].
  unfold GetNextWorkRequired, candidateHeight.
  assert (Hh : Int.to_int32 (nHeight tip + 1) = nHeight tip + 1).
  { apply to_int32_small. unfold Int.in_int32 in *. lia. }
  rewrite Hh.
  change nAveragingInterval1 with 160.
  destruct (Z.ltb_spec (nHeight tip + 1) 160); [reflexivity | lia].
Qed.

Lemma GetNextWorkRequired_genesis_guard_witness :
  GetNextWorkRequired None (mkBlockHeader 1380000045) sampleParams
    = Some (GetCompact (powLimit sampleParams))
  /\ GetNextWorkRequired (Some genesisEntry) (mkBlockHeader 1380000045) sampleParams
    = Some (GetCompact (powLimit sampleParams)).
Proof.
  split.
  - apply GetNextWorkRequired_genesis_guard. left. reflexivity.
  - apply GetNextWorkRequired_genesis_guard. right.
    exists genesisEntry. unfold Int.in_int32. simpl. repeat split; lia.
Defined.

(** ** The compact decoder *)

Lemma SetCompact_magnitude_range (nCompact : Z) :
  0 <= magnitude (SetCompact nCompact) < Arith256.modulus.
Proof.
  unfold SetCompact. cbn [magnitude].
  destruct (Z.leb_spec (Z.shiftr nCompact 24) 3) as [Hs | Hs].
  - change 0x007fffff with (Z.ones 23).
    rewrite Z.land_ones by lia.
    rewrite Z.shiftr_div_pow2 by lia.
    pose proof (Z.mod_pos_bound nCompact (2 ^ 23) ltac:(lia)) as Hm.
    assert (0 < 2 ^ (8 * (3 - Z.shiftr nCompact 24))) by (apply Z.pow_pos_nonneg; lia).
    split.
    + apply Z.div_pos; lia.
    + apply Z.le_lt_trans with (nCompact mod 2 ^ 23).
      * apply Z.div_le_upper_bound; [lia | nia].
      * unfold Arith256.modulus. lia.
  - apply norm_range.
Qed.

(** The decoded magnitude is never the all-ones word: its low bit is clear
    whenever the mantissa has been shifted left. *)
Lemma SetCompact_magnitude_not_max (nCompact : Z) :
  magnitude (SetCompact nCompact) + 1 < Arith256.modulus.
Proof.
  pose proof (SetCompact_magnitude_range nCompact) as Hr.
  enough (magnitude (SetCompact nCompact) <> Arith256.modulus - 1) by lia.
  unfold SetCompact in *. cbn [magnitude] in *.
  destruct (Z.leb_spec (Z.shiftr nCompact 24) 3) as [Hs | Hs].
  - change 0x007fffff with (Z.ones 23).
    rewrite Z.land_ones by lia.
    rewrite Z.shiftr_div_pow2 by lia.
    pose proof (Z.mod_pos_bound nCompact (2 ^ 23) ltac:(lia)) as Hm.
    assert (0 < 2 ^ (8 * (3 - Z.shiftr nCompact 24))) by (apply Z.pow_pos_nonneg; lia).
    assert (nCompact mod 2 ^ 23 / 2 ^ (8 * (3 - Z.shiftr nCompact 24)) <= nCompact mod 2 ^ 23)
      by (apply Z.div_le_upper_bound; [lia | nia]).
    unfold Arith256.modulus. lia.
  - intros Heq.
    assert (Hodd : (Arith256.modulus - 1) mod 2 = 1) by reflexivity.
    rewrite <- Heq in Hodd.
    unfold Arith256.shl, Arith256.norm in Hodd.
    rewrite Z.mod_mod_divide in Hodd by (exists (2 ^ 255); reflexivity).
    rewrite Z.shiftl_mul_pow2 in Hodd by lia.
    replace (8 * (Z.shiftr nCompact 24 - 3))
      with (1 + (8 * (Z.shiftr nCompact 24 - 3) - 1)) in Hodd by lia.
    rewrite Z.pow_add_r, Z.pow_1_r in Hodd by lia.
    rewrite Z.mul_assoc, (Z.mul_comm _ 2), <- Z.mul_assoc, Z.mul_comm in Hodd.
    rewrite Z.mod_mul in Hodd by lia. discriminate.
Qed.

(** ** Eras *)

Lemma eraTimespans_cases (pindexLast : CBlockIndex) :
  eraTimespans pindexLast =
    if candidateHeight pindexLast <? 32000 then (7128, 7920, 7200)
    else if candidateHeight pindexLast <? 90000 then (356, 363, 360)
    else (356, 370, 360).
Proof.
  unfold eraTimespans.
  change nHeightVer3 with 90000. change nHeightVer2 with 32000.
  destruct (Z.leb_spec 90000 (candidateHeight pindexLast));
    destruct (Z.leb_spec 32000 (candidateHeight pindexLast));
    destruct (Z.ltb_spec (candidateHeight pindexLast) 32000);
    destruct (Z.ltb_spec (candidateHeight pindexLast) 90000);
    try lia; reflexivity.
Qed.

Lemma limitAdjustmentStep_clamp (nMin nMax a : Z) :
  limitAdjustmentStep nMin nMax a = Z.min nMax (Z.max nMin a).
Proof.
  unfold limitAdjustmentStep.
  destruct (Z.ltb_spec a nMin); destruct (Z.ltb_spec nMax nMin);
    destruct (Z.ltb_spec nMax a); lia.
Qed.

(** The retarget of lines 148-166 in closed form. *)
Lemma CalculateNextWorkRequired_retarget
    (pindexLast : CBlockIndex) (nFirstBlockTime : Z) (params : Params) :
  fPowNoRetargeting params = false ->
  CalculateNextWorkRequired pindexLast nFirstBlockTime params =
    Some (GetCompact
            (Z.min (powLimit params)
               (Arith256.mul (magnitude (SetCompact (nBits pindexLast)))
                             (nActualTimespanLimited pindexLast nFirstBlockTime)
                / snd (eraTimespans pindexLast)))).
Proof.
  intros Hre. unfold CalculateNextWorkRequired. rewrite Hre.
  destruct (eraTimespans pindexLast) as [[nMin nMax] T] eqn:Hera.
  assert (HT : T <> 0).
  { rewrite eraTimespans_cases in Hera.
    destruct (candidateHeight pindexLast <? 32000);
      [| destruct (candidateHeight pindexLast <? 90000)];
      inversion Hera; lia. }
  rewrite (div_nonzero _ _ HT). cbn [bind snd].
  do 2 f_equal.
  destruct (Z.ltb_spec (powLimit params)
              (Arith256.mul (magnitude (SetCompact (nBits pindexLast)))
                 (nActualTimespanLimited pindexLast nFirstBlockTime) / T)); lia.
Qed.

(** ** The limits on the actual timespan *)

Lemma nActualTimespanLimited_clamp (pindexLast : CBlockIndex) (nFirstBlockTime : Z) :
  nActualTimespanLimited pindexLast nFirstBlockTime =
    Z.min (snd (fst (eraTimespans pindexLast)))
      (Z.max (fst (fst (eraTimespans pindexLast)))
         (Int.to_int64 (GetBlockTime pindexLast - nFirstBlockTime))).
Proof.
  unfold nActualTimespanLimited.
  destruct (eraTimespans pindexLast) as [[nMin nMax] T].
  apply limitAdjustmentStep_clamp.
Qed.

Lemma nActualTimespanLimited_bounds (pindexLast : CBlockIndex) (nFirstBlockTime : Z) :
  356 <= nActualTimespanLimited pindexLast nFirstBlockTime <= 7920.
Proof.
  rewrite nActualTimespanLimited_clamp, eraTimespans_cases.
  destruct (candidateHeight pindexLast <? 32000);
    [| destruct (candidateHeight pindexLast <? 90000)]; cbn [fst snd]; lia.
Qed.

(** C1, as the code has it.  With retargeting enabled,
    [CalculateNextWorkRequired] retargets with the actual timespan (tip
    time minus first-block time, an [int64_t]) clamped into the interval
    [[T*(100-up)/100, T*(100+down)/100]] of the era of the candidate height:
    below 32000, [T = 7200], at most 1% shorter and 10% longer,
    [[7128, 7920]]; from 32000 up to 90000, [T = 360], 1% and 1%,
    [[356, 363]]; from 90000 on, [T = 360], at most 1% shorter and 3%
    longer, [[356, 370]]. *)
Theorem timespan_limits_by_era
    (pindexLast : CBlockIndex) (nFirstBlockTime : Z) (params : Params) :
  fPowNoRetargeting params = false ->
  exists T up down lo hi,
    (T, up, down) =
      (if candidateHeight pindexLast <? 32000 then (7200, 1, 10)
       else if candidateHeight pindexLast <? 90000 then (360, 1, 1)
       else (360, 1, 3))
    /\ lo = T * (100 - up) / 100
    /\ hi = T * (100 + down) / 100
    /\ (lo, hi) =
      (if candidateHeight pindexLast <? 32000 then (7128, 7920)
       else if candidateHeight pindexLast <? 90000 then (356, 363)
       else (356, 370))
    /\ nActualTimespanLimited pindexLast nFirstBlockTime =
         Z.min hi (Z.max lo (Int.to_int64 (GetBlockTime pindexLast - nFirstBlockTime)))
    /\ lo <= nActualTimespanLimited pindexLast nFirstBlockTime <= hi
    /\ (Int.in_int64 (GetBlockTime pindexLast - nFirstBlockTime) ->
        Int.to_int64 (GetBlockTime pindexLast - nFirstBlockTime)
          = GetBlockTime pindexLast - nFirstBlockTime)
    /\ CalculateNextWorkRequired pindexLast nFirstBlockTime params =
         Some (GetCompact
                 (Z.min (powLimit params)
                    (Arith256.mul (magnitude (SetCompact (nBits pindexLast)))
                       (nActualTimespanLimited pindexLast nFirstBlockTime) / T))).
Proof.
  intros Hre.
  pose proof (CalculateNextWorkRequired_retarget pindexLast nFirstBlockTime params Hre) as Hcalc.
  pose proof (nActualTimespanLimited_clamp pindexLast nFirstBlockTime) as Hclamp.
  rewrite eraTimespans_cases in Hcalc, Hclamp.
  destruct (candidateHeight pindexLast <? 32000);
    [| destruct (candidateHeight pindexLast <? 90000)];
    cbn [fst snd] in Hcalc, Hclamp.
  - exists 7200, 1, 10, 7128, 7920.
    repeat (split; [first [reflexivity | exact Hclamp | lia] |]).
    split; [apply to_int64_small | exact Hcalc].
  - exists 360, 1, 1, 356, 363.
    repeat (split; [first [reflexivity | exact Hclamp | lia] |]).
    split; [apply to_int64_small | exact Hcalc].
  - exists 360, 1, 3, 356, 370.
    repeat (split; [first [reflexivity | exact Hclamp | lia] |]).
    split; [apply to_int64_small | exact Hcalc].
Qed.

Lemma timespan_limits_by_era_witness :
  exists T up down lo hi,
    (T, up, down) =
      (if candidateHeight tipEra3 <? 32000 then (7200, 1, 10)
       else if candidateHeight tipEra3 <? 90000 then (360, 1, 1)
       else (360, 1, 3))
    /\ lo = T * (100 - up) / 100
    /\ hi = T * (100 + down) / 100
    /\ (lo, hi) =
      (if candidateHeight tipEra3 <? 32000 then (7128, 7920)
       else if candidateHeight tipEra3 <? 90000 then (356, 363)
       else (356, 370))
    /\ nActualTimespanLimited tipEra3 1380000000 =
         Z.min hi (Z.max lo (Int.to_int64 (GetBlockTime tipEra3 - 1380000000)))
    /\ lo <= nActualTimespanLimited tipEra3 1380000000 <= hi
    /\ (Int.in_int64 (GetBlockTime tipEra3 - 1380000000) ->
        Int.to_int64 (GetBlockTime tipEra3 - 1380000000)
          = GetBlockTime tipEra3 - 1380000000)
    /\ CalculateNextWorkRequired tipEra3 1380000000 sampleParams =
         Some (GetCompact
                 (Z.min (powLimit sampleParams)
                    (Arith256.mul (magnitude (SetCompact (nBits tipEra3)))
                       (nActualTimespanLimited tipEra3 1380000000) / T))).
Proof.
  apply (timespan_limits_by_era tipEra3 1380000000 sampleParams). reflexivity.
Defined.

(** C1 as the specification's table words it fails: at an era-1 tip whose
    window took 8000 seconds the code retargets with 7920, above the
    claimed ceiling 7272; at an era-3 tip whose window took 8000 seconds it
    retargets with 370, above the claimed ceiling 363. *)
Lemma timespan_limits_spec_table_fails :
  fPowNoRetargeting sampleParams = false
  /\ specClampInterval (candidateHeight tipEra1) = (6480, 7272)
  /\ nActualTimespanLimited tipEra1 1380000000 = 7920
  /\ ~ (fst (specClampInterval (candidateHeight tipEra1))
          <= nActualTimespanLimited tipEra1 1380000000
          <= snd (specClampInterval (candidateHeight tipEra1)))
  /\ specClampInterval (candidateHeight tipEra3) = (349, 363)
  /\ nActualTimespanLimited tipEra3 1380000000 = 370
  /\ ~ (fst (specClampInterval (candidateHeight tipEra3))
          <= nActualTimespanLimited tipEra3 1380000000
          <= snd (specClampInterval (candidateHeight tipEra3))).
Proof.
  repeat split; try reflexivity; vm_compute; intros [_ H]; apply H; reflexivity.
Qed.

(** ** The retarget formula *)

(** C2, as the code has it.  With retargeting enabled,
    [CalculateNextWorkRequired] returns the compact encoding of
    [min(powLimit, ((old * t) mod 2^256) / T)], where [old] is the decoded
    target of the tip, [t] the clamped timespan and [T] the averaging
    timespan of the era: the multiplication comes first and is reduced
    modulo [2^256].  Whenever [old * t] is below [2^256], in particular
    whenever [old] is below [2^243], nothing is lost and the result is the
    compact encoding of [min(powLimit, old * t / T)]. *)
Theorem retarget_multiplies_then_divides
    (pindexLast : CBlockIndex) (nFirstBlockTime : Z) (params : Params) :
  fPowNoRetargeting params = false ->
  CalculateNextWorkRequired pindexLast nFirstBlockTime params =
    Some (GetCompact
            (Z.min (powLimit params)
               ((magnitude (SetCompact (nBits pindexLast))
                   * nActualTimespanLimited pindexLast nFirstBlockTime) mod 2 ^ 256
                / snd (eraTimespans pindexLast))))
  /\ (magnitude (SetCompact (nBits pindexLast))
        * nActualTimespanLimited pindexLast nFirstBlockTime < 2 ^ 256 ->
      CalculateNextWorkRequired pindexLast nFirstBlockTime params =
        Some (GetCompact (specNewTarget pindexLast nFirstBlockTime params)))
  /\ (magnitude (SetCompact (nBits pindexLast)) < 2 ^ 243 ->
      magnitude (SetCompact (nBits pindexLast))
        * nActualTimespanLimited pindexLast nFirstBlockTime < 2 ^ 256).
Proof.
  intros Hre.
  pose proof (CalculateNextWorkRequired_retarget pindexLast nFirstBlockTime params Hre) as Hcalc.
  pose proof (SetCompact_magnitude_range (nBits pindexLast)) as Hold.
  pose proof (nActualTimespanLimited_bounds pindexLast nFirstBlockTime) as Ht.
  split; [exact Hcalc | split].
  - intros Hfit. rewrite Hcalc. unfold specNewTarget.
    destruct (eraTimespans pindexLast) as [[nMin nMax] T]. cbn [snd].
    unfold Arith256.mul. rewrite norm_small; [reflexivity |].
    unfold Arith256.modulus. nia.
  - intros Hsmall.
    apply Z.le_lt_trans with (2 ^ 243 * 7920); [nia | reflexivity].
Qed.

Lemma retarget_multiplies_then_divides_witness :
  CalculateNextWorkRequired tipEra1 1380000000 sampleParams =
    Some (GetCompact
            (Z.min (powLimit sampleParams)
               ((magnitude (SetCompact (nBits tipEra1))
                   * nActualTimespanLimited tipEra1 1380000000) mod 2 ^ 256
                / snd (eraTimespans tipEra1))))
  /\ (magnitude (SetCompact (nBits tipEra1))
        * nActualTimespanLimited tipEra1 1380000000 < 2 ^ 256 ->
      CalculateNextWorkRequired tipEra1 1380000000 sampleParams =
        Some (GetCompact (specNewTarget tipEra1 1380000000 sampleParams)))
  /\ (magnitude (SetCompact (nBits tipEra1)) < 2 ^ 243 ->
      magnitude (SetCompact (nBits tipEra1))
        * nActualTimespanLimited tipEra1 1380000000 < 2 ^ 256).
Proof.
  apply (retarget_multiplies_then_divides tipEra1 1380000000 sampleParams).
  reflexivity.
Defined.

(** C2 as stated fails: the tip target [0x7fffff * 2^232] times the clamped
    timespan 7200 exceeds [2^256], the 256-bit product wraps, and the code
    returns [0x1f09192b] (520689963) where the exact formula gives [0x207fffff]. *)
Lemma retarget_product_wraps :
  fPowNoRetargeting wideParams = false
  /\ 2 ^ 256 <= magnitude (SetCompact (nBits tipWide))
                 * nActualTimespanLimited tipWide 1380000000
  /\ CalculateNextWorkRequired tipWide 1380000000 wideParams = Some 520689963
  /\ GetCompact (specNewTarget tipWide 1380000000 wideParams) = 0x207fffff
  /\ CalculateNextWorkRequired tipWide 1380000000 wideParams
       <> Some (GetCompact (specNewTarget tipWide 1380000000 wideParams)).
Proof.
  repeat split; try (vm_compute; reflexivity); vm_compute; discriminate.
Qed.

(** ** [CheckProofOfWork] *)

(** C3. [CheckProofOfWork] returns [false] exactly when the decode of
    [nBits] is negative, or an overflow, or zero, or above [powLimit], or
    when the hash exceeds the decoded target; otherwise it returns [true],
    in particular for a hash equal to an admissible target.  A diagnostic
    is logged exactly when the answer is [false]. *)
Theorem CheckProofOfWork_fails_exactly (hash nBits : Z) (params : Params) :
  (CheckProofOfWork hash nBits params = false <->
     fNegative (SetCompact nBits) = true
     \/ fOverflow (SetCompact nBits) = true
     \/ magnitude (SetCompact nBits) = 0
     \/ powLimit params < magnitude (SetCompact nBits)
     \/ magnitude (SetCompact nBits) < hash)
  /\ CheckProofOfWork (magnitude (SetCompact nBits)) nBits params =
       validTarget (SetCompact nBits)
       && (magnitude (SetCompact nBits) <=? powLimit params)
  /\ (CheckProofOfWork hash nBits params = true <->
        snd (CheckProofOfWork_log hash nBits params) = []).
Proof.
  unfold CheckProofOfWork, CheckProofOfWork_log, validTarget, error.
  generalize (SetCompact nBits). intros [t neg ovf].
  cbn [magnitude fNegative fOverflow].
  destruct neg, ovf;
    destruct (Z.eqb_spec t 0);
    destruct (Z.ltb_spec (powLimit params) t);
    destruct (Z.ltb_spec t hash);
    destruct (Z.ltb_spec t t);
    destruct (Z.leb_spec t (powLimit params));
    cbn [orb andb negb fst snd]; try lia;
    (split; [| split]); try reflexivity;
    (split; intros; try discriminate; try tauto; try lia).
Qed.

(** ** [GetBlockProof] *)

Lemma validTarget_true (d : Decoded) :
  validTarget d = true <->
  fNegative d = false /\ fOverflow d = false /\ magnitude d <> 0.
Proof.
  unfold validTarget.
  destruct (fNegative d), (fOverflow d), (Z.eqb_spec (magnitude d) 0);
    cbn; intuition (try discriminate; try lia).
Qed.

Lemma validTarget_false (d : Decoded) :
  validTarget d = false <->
  fNegative d = true \/ fOverflow d = true \/ magnitude d = 0.
Proof.
  unfold validTarget.
  destruct (fNegative d), (fOverflow d), (Z.eqb_spec (magnitude d) 0);
    cbn; intuition (try discriminate; try lia).
Qed.

(** The 256-bit expression of line 200 is the quotient [2^256 / (t + 1)]. *)
Lemma work_expression (t : Z) :
  0 < t -> t + 1 < Arith256.modulus ->
  Arith256.add t 1 = t + 1
  /\ Arith256.lnot t = Arith256.modulus - 1 - t
  /\ Arith256.add (Arith256.lnot t / Arith256.add t 1) 1 = Arith256.modulus / (t + 1)
  /\ 0 < Arith256.modulus / (t + 1) < Arith256.modulus.
Proof.
  intros Hpos Hlt.
  assert (Hadd : Arith256.add t 1 = t + 1).
  { unfold Arith256.add. apply norm_small. lia. }
  assert (Hnot : Arith256.lnot t = Arith256.modulus - 1 - t).
  { unfold Arith256.lnot, Arith256.norm.
    replace (Z.lnot t) with (Arith256.modulus - 1 - t + (-1) * Arith256.modulus)
      by (unfold Z.lnot; lia).
    rewrite Z.mod_add by (pose proof modulus_pos; lia).
    apply Z.mod_small. lia. }
  assert (Hq : (Arith256.modulus - 1 - t) / (t + 1) + 1 = Arith256.modulus / (t + 1)).
  { rewrite <- Z.div_add by lia. f_equal. lia. }
  assert (Hw : 0 < Arith256.modulus / (t + 1) < Arith256.modulus).
  { split.
    - apply Z.div_str_pos. lia.
    - apply Z.div_lt; lia. }
  repeat split; try assumption; try lia.
  rewrite Hadd, Hnot. unfold Arith256.add. rewrite Hq. apply norm_small. lia.
Qed.

Lemma GetBlockProof_closed (block : CBlockIndex) :
  GetBlockProof block =
    Some (if validTarget (SetCompact (nBits block))
          then Arith256.modulus / (magnitude (SetCompact (nBits block)) + 1)
          else 0).
Proof.
  unfold GetBlockProof. cbv zeta.
  pose proof (SetCompact_magnitude_range (nBits block)) as Hr.
  pose proof (SetCompact_magnitude_not_max (nBits block)) as Hm.
  destruct (validTarget (SetCompact (nBits block))) eqn:Hv.
  - apply validTarget_true in Hv. destruct Hv as (Hn & Ho & Hz).
    rewrite Hn, Ho. cbn [orb].
    destruct (Z.eqb_spec (magnitude (SetCompact (nBits block))) 0); [contradiction |].
    destruct (work_expression (magnitude (SetCompact (nBits block))))
      as (Hadd & Hnot & Hw & _); [lia | lia |].
    rewrite div_nonzero by (rewrite Hadd; lia).
    cbn [bind]. rewrite Hw. reflexivity.
  - unfold validTarget in Hv. apply negb_false_iff in Hv.
    rewrite Hv. reflexivity.
Qed.

Lemma Some_inj {A : Type} (a b : A) : Some a = Some b -> a = b.
Proof. intros H. injection H as ->. reflexivity. Qed.

Lemma GetBlockProof_range (block : CBlockIndex) (proof : Z) :
  GetBlockProof block = Some proof -> 0 <= proof < Arith256.modulus.
Proof.
  rewrite GetBlockProof_closed. intros Heq.
  apply Some_inj in Heq. subst proof.
  pose proof (SetCompact_magnitude_range (nBits block)) as Hr.
  pose proof (SetCompact_magnitude_not_max (nBits block)) as Hm.
  destruct (validTarget (SetCompact (nBits block))) eqn:Hv.
  - apply validTarget_true in Hv. destruct Hv as (_ & _ & Hz).
    destruct (work_expression (magnitude (SetCompact (nBits block)))); lia.
  - pose proof modulus_pos. lia.
Qed.

(** C5. [GetBlockProof] always returns: [0] when the compact target
    decodes negative, with overflow or to zero; otherwise
    [~target / (target + 1) + 1] in 256-bit arithmetic, where the division
    is defined and the value is the exact quotient
    [floor(2^256 / (target + 1))]. *)
Theorem GetBlockProof_is_floor_quotient (block : CBlockIndex) :
  GetBlockProof block =
    Some (if validTarget (SetCompact (nBits block))
          then 2 ^ 256 / (magnitude (SetCompact (nBits block)) + 1)
          else 0)
  /\ (fNegative (SetCompact (nBits block)) = true
      \/ fOverflow (SetCompact (nBits block)) = true
      \/ magnitude (SetCompact (nBits block)) = 0 ->
      GetBlockProof block = Some 0)
  /\ (fNegative (SetCompact (nBits block)) = false ->
      fOverflow (SetCompact (nBits block)) = false ->
      magnitude (SetCompact (nBits block)) <> 0 ->
      Arith256.div (Arith256.lnot (magnitude (SetCompact (nBits block))))
                   (Arith256.add (magnitude (SetCompact (nBits block))) 1)
        = Some (Arith256.lnot (magnitude (SetCompact (nBits block)))
                  / Arith256.add (magnitude (SetCompact (nBits block))) 1)
      /\ GetBlockProof block =
           Some (Arith256.add
                   (Arith256.lnot (magnitude (SetCompact (nBits block)))
                      / Arith256.add (magnitude (SetCompact (nBits block))) 1) 1)
      /\ Arith256.add
           (Arith256.lnot (magnitude (SetCompact (nBits block)))
              / Arith256.add (magnitude (SetCompact (nBits block))) 1) 1
         = 2 ^ 256 / (magnitude (SetCompact (nBits block)) + 1)).
Proof.
  pose proof (GetBlockProof_closed block) as Hc.
  pose proof (SetCompact_magnitude_range (nBits block)) as Hr.
  pose proof (SetCompact_magnitude_not_max (nBits block)) as Hm.
  split; [exact Hc | split].
  - intros Hbad. apply validTarget_false in Hbad. rewrite Hc, Hbad. reflexivity.
  - intros Hn Ho Hz.
    destruct (work_expression (magnitude (SetCompact (nBits block))))
      as (Hadd & Hnot & Hw & _); [lia | lia |].
    assert (Hv : validTarget (SetCompact (nBits block)) = true)
      by (apply validTarget_true; auto).
    split; [apply div_nonzero; rewrite Hadd; lia | split].
    + rewrite Hc, Hv, Hw. reflexivity.
    + exact Hw.
Qed.

(** ** [GetBlockProofEquivalentTime] *)

Lemma workDifference_sym (to from : CBlockIndex) :
  workDifference to from = workDifference from to.
Proof.
  unfold workDifference.
  destruct (Z.ltb_spec (nChainWork from) (nChainWork to));
    destruct (Z.ltb_spec (nChainWork to) (nChainWork from));
    try reflexivity; try lia.
  replace (nChainWork from) with (nChainWork to) by lia. reflexivity.
Qed.

Lemma workDifference_same (to from : CBlockIndex) :
  nChainWork to = nChainWork from -> workDifference to from = 0.
Proof.
  intros Heq. unfold workDifference. rewrite Heq, Z.ltb_irrefl.
  unfold Arith256.sub. rewrite Z.sub_diag. reflexivity.
Qed.

Lemma equivalentTimeMagnitude_sym (to from : CBlockIndex) (params : Params) (proof : Z) :
  equivalentTimeMagnitude to from params proof
    = equivalentTimeMagnitude from to params proof.
Proof. unfold equivalentTimeMagnitude. rewrite workDifference_sym. reflexivity. Qed.

Lemma equivalentTimeMagnitude_nonneg
    (to from : CBlockIndex) (params : Params) (proof : Z) :
  0 < proof -> 0 <= equivalentTimeMagnitude to from params proof.
Proof.
  intros Hp. unfold equivalentTimeMagnitude, Arith256.mul.
  apply Z.div_pos; [apply norm_range | exact Hp].
Qed.

Lemma saturated_range (r : Z) : 0 <= r -> 0 <= saturated r <= Int.int64_max.
Proof.
  intros Hr. unfold saturated.
  destruct (Z.ltb_spec 63 (Arith256.bits r)) as [Hb | Hb].
  - unfold Int.int64_max. lia.
  - pose proof (bits_le_63 r Hr Hb). unfold Int.int64_max. lia.
Qed.

Lemma signed_return (sign r : Z) :
  sign = 1 \/ sign = -1 -> 0 <= r < 2 ^ 63 ->
  Int.to_int64 (Int.to_uint64 (Int.to_uint64 sign * Arith256.GetLow64 r)) = sign * r.
Proof.
  intros Hs Hr.
  assert (Hlow : Arith256.GetLow64 r = r).
  { unfold Arith256.GetLow64. apply Z.mod_small. lia. }
  rewrite Hlow, to_uint64_mul_l, to_int64_to_uint64.
  apply to_int64_small. unfold Int.in_int64. destruct Hs; subst sign; lia.
Qed.

Lemma GetBlockProofEquivalentTime_closed
    (to from tip : CBlockIndex) (params : Params) (proof : Z) :
  GetBlockProof tip = Some proof -> proof <> 0 ->
  GetBlockProofEquivalentTime to from tip params =
    Some (workSign to from * saturated (equivalentTimeMagnitude to from params proof)).
Proof.
  intros Hproof Hnz.
  pose proof (GetBlockProof_range tip proof Hproof) as Hrange.
  assert (Hpos : 0 < proof) by lia.
  pose proof (equivalentTimeMagnitude_nonneg to from params proof Hpos) as Hnn.
  unfold GetBlockProofEquivalentTime, saturated.
  unfold equivalentTimeMagnitude, workSign, workDifference in *.
  destruct (nChainWork from <? nChainWork to);
    rewrite Hproof; cbn [bind]; rewrite (div_nonzero _ _ Hnz); cbn [bind];
    match goal with
    | |- context [63 <? Arith256.bits ?r] =>
        destruct (Z.ltb_spec 63 (Arith256.bits r)) as [Hb | Hb]
    end;
    f_equal;
    try (apply to_int64_small; unfold Int.in_int64, Int.int64_max; lia);
    (apply signed_return; [lia | split; [exact Hnn | apply bits_le_63; assumption]]).
Qed.

(** The 256-bit magnitude is the exact quotient whenever the operands are
    well-formed and the product fits 256 bits. *)
Lemma equivalentTimeMagnitude_exact
    (to from : CBlockIndex) (params : Params) (proof : Z) :
  0 <= nChainWork to < 2 ^ 256 ->
  0 <= nChainWork from < 2 ^ 256 ->
  0 <= nPowTargetSpacing params < 2 ^ 64 ->
  Z.abs (nChainWork to - nChainWork from) * nPowTargetSpacing params < 2 ^ 256 ->
  equivalentTimeMagnitude to from params proof =
    Z.abs (nChainWork to - nChainWork from) * nPowTargetSpacing params / proof.
Proof.
  intros Ht Hf Hs Hfit.
  unfold equivalentTimeMagnitude. f_equal.
  assert (Hd : workDifference to from = Z.abs (nChainWork to - nChainWork from)).
  { unfold workDifference, Arith256.sub.
    destruct (Z.ltb_spec (nChainWork from) (nChainWork to));
      rewrite norm_small; unfold Arith256.modulus; lia. }
  assert (Hu : Int.to_uint64 (nPowTargetSpacing params) = nPowTargetSpacing params).
  { unfold Int.to_uint64. apply Z.mod_small. lia. }
  rewrite Hd, Hu. unfold Arith256.mul. apply norm_small.
  unfold Arith256.modulus. nia.
Qed.

(** C7, as the code has it.  With a tip of nonzero work,
    [GetBlockProofEquivalentTime] saturates on the magnitude that line 213
    computes in 256-bit arithmetic,
    [((|to.nChainWork - from.nChainWork| * nPowTargetSpacing) mod 2^256) / GetBlockProof(tip)]:
    when it has more than 63 significant bits the result is
    [sign * (2^63 - 1)], the largest [int64_t] magnitude with the sign of
    the work difference, and otherwise it is [sign] times that magnitude.
    Whenever the chain works are 256-bit values, the spacing is in
    [[0, 2^64)] and the product fits 256 bits, the computed magnitude is
    the exact quotient, and an exact quotient of more than 63 bits
    saturates. *)
Theorem equivalent_time_saturates
    (to from tip : CBlockIndex) (params : Params) (proof : Z) :
  GetBlockProof tip = Some proof -> proof <> 0 ->
  (63 < Arith256.bits (equivalentTimeMagnitude to from params proof) ->
   GetBlockProofEquivalentTime to from tip params =
     Some ((if nChainWork from <? nChainWork to then 1 else -1) * (2 ^ 63 - 1)))
  /\ (Arith256.bits (equivalentTimeMagnitude to from params proof) <= 63 ->
      GetBlockProofEquivalentTime to from tip params =
        Some ((if nChainWork from <? nChainWork to then 1 else -1)
              * equivalentTimeMagnitude to from params proof))
  /\ (0 <= nChainWork to < 2 ^ 256 ->
      0 <= nChainWork from < 2 ^ 256 ->
      0 <= nPowTargetSpacing params < 2 ^ 64 ->
      Z.abs (nChainWork to - nChainWork from) * nPowTargetSpacing params < 2 ^ 256 ->
      equivalentTimeMagnitude to from params proof
        = specEquivalentTimeMagnitude to from params proof
      /\ (63 < Arith256.bits (specEquivalentTimeMagnitude to from params proof) ->
          GetBlockProofEquivalentTime to from tip params =
            Some ((if nChainWork from <? nChainWork to then 1 else -1)
                  * (2 ^ 63 - 1)))).
Proof.
  intros Hproof Hnz.
  pose proof (GetBlockProofEquivalentTime_closed to from tip params proof Hproof Hnz)
    as Hclosed.
  unfold saturated, workSign in Hclosed.
  assert (Hsat : 63 < Arith256.bits (equivalentTimeMagnitude to from params proof) ->
                 GetBlockProofEquivalentTime to from tip params =
                   Some ((if nChainWork from <? nChainWork to then 1 else -1)
                         * (2 ^ 63 - 1))).
  { intros Hbits. rewrite Hclosed.
    destruct (Z.ltb_spec 63 (Arith256.bits (equivalentTimeMagnitude to from params proof)));
      [reflexivity | lia]. }
  split; [exact Hsat | split].
  - intros Hbits. rewrite Hclosed.
    destruct (Z.ltb_spec 63 (Arith256.bits (equivalentTimeMagnitude to from params proof)));
      [lia | reflexivity].
  - intros Hto Hfrom Hsp Hfit.
    pose proof (equivalentTimeMagnitude_exact to from params proof Hto Hfrom Hsp Hfit)
      as Hexact.
    fold (specEquivalentTimeMagnitude to from params proof) in Hexact.
    split; [exact Hexact |].
    rewrite <- Hexact. exact Hsat.
Qed.

(** C8. With a tip of nonzero work, swapping [to] and [from] negates the
    result of [GetBlockProofEquivalentTime] and keeps its magnitude. *)
Theorem equivalent_time_antisymmetric
    (to from tip : CBlockIndex) (params : Params) (proof : Z) :
  GetBlockProof tip = Some proof -> proof <> 0 ->
  exists t,
    GetBlockProofEquivalentTime to from tip params = Some t
    /\ GetBlockProofEquivalentTime from to tip params = Some (- t)
    /\ Z.abs t = saturated (equivalentTimeMagnitude to from params proof)
    /\ - (2 ^ 63 - 1) <= t <= 2 ^ 63 - 1.
Proof.
  intros Hproof Hnz.
  pose proof (GetBlockProof_range tip proof Hproof) as Hrange.
  assert (Hpos : 0 < proof) by lia.
  pose proof (saturated_range _ (equivalentTimeMagnitude_nonneg to from params proof Hpos))
    as Hsat.
  rewrite (GetBlockProofEquivalentTime_closed to from tip params proof Hproof Hnz).
  rewrite (GetBlockProofEquivalentTime_closed from to tip params proof Hproof Hnz).
  rewrite <- (equivalentTimeMagnitude_sym to from).
  eexists. split; [reflexivity |].
  unfold Int.int64_max in Hsat.
  destruct (Z.eq_dec (nChainWork to) (nChainWork from)) as [Heq | Hne].
  - assert (Hz : saturated (equivalentTimeMagnitude to from params proof) = 0).
    { unfold equivalentTimeMagnitude. rewrite (workDifference_same to from Heq).
      reflexivity. }
    rewrite Hz. repeat split; try lia. f_equal. lia.
  - unfold workSign.
    destruct (Z.ltb_spec (nChainWork from) (nChainWork to));
      destruct (Z.ltb_spec (nChainWork to) (nChainWork from));
      try lia; (repeat split; try lia; f_equal; lia).
Qed.

Lemma equivalent_time_saturates_witness :
  GetBlockProofEquivalentTime heavyEntry genesisEntry tipEra1 sampleParams
    = Some (2 ^ 63 - 1)
  /\ GetBlockProofEquivalentTime genesisEntry heavyEntry tipEra1 sampleParams
    = Some (- (2 ^ 63 - 1))
  /\ GetBlockProofEquivalentTime tenBlocksAhead genesisEntry tipEra1 sampleParams
    = Some 450.
Proof.
  split; [| split].
  - apply (proj2 (proj2 (equivalent_time_saturates heavyEntry genesisEntry tipEra1
                           sampleParams 1048577
                           ltac:(vm_compute; reflexivity) ltac:(lia)))).
    + simpl. lia.
    + simpl. lia.
    + simpl. lia.
    + vm_compute. reflexivity.
    + vm_compute. reflexivity.
  - apply (proj1 (equivalent_time_saturates genesisEntry heavyEntry tipEra1
                    sampleParams 1048577
                    ltac:(vm_compute; reflexivity) ltac:(lia))).
    vm_compute. reflexivity.
  - apply (proj1 (proj2 (equivalent_time_saturates tenBlocksAhead genesisEntry tipEra1
                           sampleParams 1048577
                           ltac:(vm_compute; reflexivity) ltac:(lia)))).
    vm_compute. discriminate.
Defined.

(** C7 as stated fails when the 256-bit product wraps: with chain works
    below [2^256], a spacing of 45 and a tip work of 1048577, the exact
    magnitude [|to - from| * 45 / 1048577] has 236 significant bits, yet
    the product reduced modulo [2^256] is [100 * 1048577 + 24] and the
    function returns 100 (and -100 with the arguments swapped), not
    [2^63 - 1]. *)
Lemma equivalent_time_wrapped_product :
  GetBlockProof tipEra1 = Some 1048577
  /\ 0 <= nChainWork wrapFrom < 2 ^ 256
  /\ 0 <= nChainWork wrapTo < 2 ^ 256
  /\ Arith256.bits (specEquivalentTimeMagnitude wrapTo wrapFrom sampleParams 1048577)
       = 236
  /\ GetBlockProofEquivalentTime wrapTo wrapFrom tipEra1 sampleParams = Some 100
  /\ GetBlockProofEquivalentTime wrapFrom wrapTo tipEra1 sampleParams = Some (-100)
  /\ GetBlockProofEquivalentTime wrapTo wrapFrom tipEra1 sampleParams
       <> Some (2 ^ 63 - 1).
Proof.
  repeat split; try (vm_compute; reflexivity); vm_compute; discriminate.
Qed.

Lemma equivalent_time_antisymmetric_witness :
  exists t,
    GetBlockProofEquivalentTime tipEra1 genesisEntry genesisEntry testnetParams = Some t
    /\ GetBlockProofEquivalentTime genesisEntry tipEra1 genesisEntry testnetParams = Some (- t)
    /\ Z.abs t = saturated (equivalentTimeMagnitude tipEra1 genesisEntry testnetParams 1048577)
    /\ - (2 ^ 63 - 1) <= t <= 2 ^ 63 - 1.
Proof.
  apply (equivalent_time_antisymmetric tipEra1 genesisEntry genesisEntry testnetParams 1048577).
  - vm_compute. reflexivity.
  - lia.
Defined.

(** C10. [GetBlockProofEquivalentTime] divides by [GetBlockProof(tip)]
    without a guard: for a tip whose compact target decodes without the
    negative and overflow flags to a nonzero magnitude the divisor is
    nonzero and the function returns; for a tip whose target decodes
    negative, with overflow or to zero the divisor is zero and the division
    has no value. *)
Theorem equivalent_time_divisor
    (to from tip : CBlockIndex) (params : Params) :
  (fNegative (SetCompact (nBits tip)) = false ->
   fOverflow (SetCompact (nBits tip)) = false ->
   magnitude (SetCompact (nBits tip)) <> 0 ->
   exists proof t,
     GetBlockProof tip = Some proof /\ proof <> 0
     /\ Arith256.div
          (Arith256.mul (workDifference to from)
             (Int.to_uint64 (nPowTargetSpacing params))) proof
        = Some (equivalentTimeMagnitude to from params proof)
     /\ GetBlockProofEquivalentTime to from tip params = Some t)
  /\ (fNegative (SetCompact (nBits tip)) = true
      \/ fOverflow (SetCompact (nBits tip)) = true
      \/ magnitude (SetCompact (nBits tip)) = 0 ->
      GetBlockProof tip = Some 0
      /\ Arith256.div
           (Arith256.mul (workDifference to from)
              (Int.to_uint64 (nPowTargetSpacing params))) 0
         = None
      /\ GetBlockProofEquivalentTime to from tip params = None).
Proof.
  pose proof (GetBlockProof_closed tip) as Hc.
  pose proof (SetCompact_magnitude_range (nBits tip)) as Hr.
  pose proof (SetCompact_magnitude_not_max (nBits tip)) as Hm.
  split.
  - intros Hn Ho Hz.
    assert (Hv : validTarget (SetCompact (nBits tip)) = true)
      by (apply validTarget_true; auto).
    rewrite Hv in Hc.
    destruct (work_expression (magnitude (SetCompact (nBits tip))))
      as (_ & _ & _ & Hw); [lia | lia |].
    assert (Hnz : Arith256.modulus / (magnitude (SetCompact (nBits tip)) + 1) <> 0) by lia.
    eexists. eexists.
    split; [exact Hc | split; [exact Hnz | split]].
    + apply div_nonzero. exact Hnz.
    + apply (GetBlockProofEquivalentTime_closed to from tip params _ Hc Hnz).
  - intros Hbad. apply validTarget_false in Hbad. rewrite Hbad in Hc.
    split; [exact Hc | split; [reflexivity |]].
    unfold GetBlockProofEquivalentTime.
    destruct (nChainWork from <? nChainWork to); rewrite Hc; reflexivity.
Qed.

Lemma equivalent_time_divisor_witness :
  (exists proof t,
     GetBlockProof tipEra1 = Some proof /\ proof <> 0
     /\ Arith256.div
          (Arith256.mul (workDifference heavyEntry genesisEntry)
             (Int.to_uint64 (nPowTargetSpacing sampleParams))) proof
        = Some (equivalentTimeMagnitude heavyEntry genesisEntry sampleParams proof)
     /\ GetBlockProofEquivalentTime heavyEntry genesisEntry tipEra1 sampleParams = Some t)
  /\ (GetBlockProof negativeEntry = Some 0
      /\ Arith256.div
           (Arith256.mul (workDifference heavyEntry genesisEntry)
              (Int.to_uint64 (nPowTargetSpacing sampleParams))) 0
         = None
      /\ GetBlockProofEquivalentTime heavyEntry genesisEntry negativeEntry sampleParams
         = None).
Proof.
  split.
  - apply (proj1 (equivalent_time_divisor heavyEntry genesisEntry tipEra1 sampleParams)).
    + vm_compute. reflexivity.
    + vm_compute. reflexivity.
    + vm_compute. discriminate.
  - apply (proj2 (equivalent_time_divisor heavyEntry genesisEntry negativeEntry sampleParams)).
    left. vm_compute. reflexivity.
Defined.

(** ** Work against target *)

(** C9, as the code has it.  For two entries whose compact targets decode
    without flags to nonzero magnitudes [a <= b], the work of the first is
    at least the work of the second.  When [a] is the half of [b], the work
    of [a] is twice the work of [b] up to the [+1] of the divisor and the
    rounding of the integer divisions: it is at most [2 * work(b) + 1] and
    [2 * work(b) * (b + 1) < (work(a) + 1) * (b + 2)]; for every target
    [b] of at least [2^128] this puts it within
    [[2 * work(b) - 2, 2 * work(b) + 1]]. *)
Theorem GetBlockProof_antimonotone (ea eb : CBlockIndex) :
  fNegative (SetCompact (nBits ea)) = false ->
  fOverflow (SetCompact (nBits ea)) = false ->
  magnitude (SetCompact (nBits ea)) <> 0 ->
  fNegative (SetCompact (nBits eb)) = false ->
  fOverflow (SetCompact (nBits eb)) = false ->
  magnitude (SetCompact (nBits eb)) <> 0 ->
  magnitude (SetCompact (nBits ea)) <= magnitude (SetCompact (nBits eb)) ->
  exists wa wb,
    GetBlockProof ea = Some wa /\ GetBlockProof eb = Some wb
    /\ wb <= wa
    /\ (magnitude (SetCompact (nBits ea)) = magnitude (SetCompact (nBits eb)) / 2 ->
        wa <= 2 * wb + 1
        /\ 2 * wb * (magnitude (SetCompact (nBits eb)) + 1)
             < (wa + 1) * (magnitude (SetCompact (nBits eb)) + 2)
        /\ (2 ^ 128 <= magnitude (SetCompact (nBits eb)) ->
            2 * wb - 2 <= wa <= 2 * wb + 1)).
Proof.
  intros Hna Hoa Hza Hnb Hob Hzb Hle.
  pose proof (SetCompact_magnitude_range (nBits ea)) as Hra.
  pose proof (SetCompact_magnitude_range (nBits eb)) as Hrb.
  assert (Hva : validTarget (SetCompact (nBits ea)) = true)
    by (apply validTarget_true; auto).
  assert (Hvb : validTarget (SetCompact (nBits eb)) = true)
    by (apply validTarget_true; auto).
  pose proof (GetBlockProof_closed ea) as Hca. rewrite Hva in Hca.
  pose proof (GetBlockProof_closed eb) as Hcb. rewrite Hvb in Hcb.
  pose proof modulus_pos as HM.
  assert (Hsq : Arith256.modulus = 2 ^ 128 * 2 ^ 128) by reflexivity.
  assert (HK : 0 < 2 ^ 128) by reflexivity.
  generalize dependent (magnitude (SetCompact (nBits ea))). intros a.
  generalize dependent (magnitude (SetCompact (nBits eb))). intros b.
  generalize dependent (2 ^ 128). intros K.
  generalize dependent Arith256.modulus. intros M. intros.
  exists (M / (a + 1)), (M / (b + 1)).
  split; [assumption | split; [assumption | split]].
  - apply Z.div_le_compat_l; lia.
  - intros Hhalf.
    assert (Hb2 : b + 1 <= 2 * (a + 1) <= b + 2).
    { subst a. pose proof (Z.div_mod b 2 ltac:(lia)).
      pose proof (Z.mod_pos_bound b 2 ltac:(lia)). lia. }
    pose proof (Z.mul_div_le M (b + 1) ltac:(lia)) as Hwb_le.
    pose proof (Z.mul_succ_div_gt M (b + 1) ltac:(lia)) as Hwb_gt.
    pose proof (Z.mul_div_le M (a + 1) ltac:(lia)) as Hwa_le.
    pose proof (Z.mul_succ_div_gt M (a + 1) ltac:(lia)) as Hwa_gt.
    assert (Hwa0 : 0 <= M / (a + 1)) by (apply Z.div_pos; lia).
    assert (Hwb0 : 0 <= M / (b + 1)) by (apply Z.div_pos; lia).
    set (wa := M / (a + 1)) in *. set (wb := M / (b + 1)) in *.
    assert (Hupper : wa <= 2 * wb + 1).
    { enough (wa < 2 * wb + 2) by lia.
      apply Z.div_lt_upper_bound; [lia | nia]. }
    assert (Hrel : 2 * wb * (b + 1) < (wa + 1) * (b + 2)) by nia.
    split; [exact Hupper | split; [exact Hrel |]].
    intros Hbig. split; [| exact Hupper].
    assert (Hwb_small : wb < K) by nia.
    nia.
Qed.

Lemma GetBlockProof_antimonotone_witness :
  exists wa wb,
    GetBlockProof hardEntry = Some wa /\ GetBlockProof easyEntry = Some wb
    /\ wb <= wa
    /\ (magnitude (SetCompact (nBits hardEntry))
          = magnitude (SetCompact (nBits easyEntry)) / 2 ->
        wa <= 2 * wb + 1
        /\ 2 * wb * (magnitude (SetCompact (nBits easyEntry)) + 1)
             < (wa + 1) * (magnitude (SetCompact (nBits easyEntry)) + 2)
        /\ (2 ^ 128 <= magnitude (SetCompact (nBits easyEntry)) ->
            2 * wb - 2 <= wa <= 2 * wb + 1)).
Proof.
  apply (GetBlockProof_antimonotone hardEntry easyEntry).
  - vm_compute. reflexivity.
  - vm_compute. reflexivity.
  - vm_compute. discriminate.
  - vm_compute. reflexivity.
  - vm_compute. reflexivity.
  - vm_compute. discriminate.
  - vm_compute. discriminate.
Defined.

(** C9 as stated fails for small targets: the compact targets [0x01020000]
    and [0x01010000] decode to 2 and to its half 1, and their works are
    [floor(2^256 / 3)] and [2^255]: one and a half times, short of the
    double by more than [2^253]. *)
Lemma halved_small_target_not_doubled :
  validTarget (SetCompact (nBits tinyEasyEntry)) = true
  /\ validTarget (SetCompact (nBits tinyHardEntry)) = true
  /\ magnitude (SetCompact (nBits tinyEasyEntry)) = 2
  /\ magnitude (SetCompact (nBits tinyHardEntry))
       = magnitude (SetCompact (nBits tinyEasyEntry)) / 2
  /\ GetBlockProof tinyEasyEntry = Some ((2 ^ 256 - 1) / 3)
  /\ GetBlockProof tinyHardEntry = Some (2 ^ 255)
  /\ 2 * 2 ^ 255 = 3 * ((2 ^ 256 - 1) / 3) + 1
  /\ 2 ^ 253 < 2 * ((2 ^ 256 - 1) / 3) - 2 ^ 255.
Proof.
  repeat split; vm_compute; reflexivity.
Qed.

(** ** The test-network rule *)

(** Induction along the [pprev] links. *)
Lemma chain_ind (P : CBlockIndex -> Prop) :
  (forall h t b w, P (mkBlockIndex None h t b w)) ->
  (forall prev h t b w, P prev -> P (mkBlockIndex (Some prev) h t b w)) ->
  forall x : CBlockIndex, P x.
Proof.
  intros Hroot Hstep. fix IH 1.
  intros [[prev |] h t b w].
  - apply Hstep, IH.
  - apply Hroot.
Qed.

Lemma rootOf_no_predecessor (b : CBlockIndex) : pprev b = None -> rootOf b = b.
Proof. destruct b as [[prev |] h t bits w]; [discriminate | reflexivity]. Qed.

(** The loop of lines 76-77 stops at the first entry, from the tip down,
    that has no predecessor, or sits on an adjustment boundary, or does not
    carry the minimum-difficulty target. *)
Lemma lastNonSpecial_stops (interval nProofOfWorkLimit : Z) :
  interval <> 0 ->
  forall b : CBlockIndex,
  exists skipped stop rest,
    ancestors b = skipped ++ stop :: rest
    /\ Forall (specialMinDifficulty interval nProofOfWorkLimit) skipped
    /\ (pprev stop = None
        \/ (interval | nHeight stop)
        \/ nBits stop <> nProofOfWorkLimit)
    /\ rootOf stop = rootOf b
    /\ lastNonSpecial interval nProofOfWorkLimit b = Some stop.
Proof.
  intros Hnz b. induction b as [h t bits w | prev h t bits w IH] using chain_ind.
  - exists [], (mkBlockIndex None h t bits w), [].
    repeat split; auto.
  - cbn [lastNonSpecial]. unfold int64_rem.
    destruct (Z.eqb_spec interval 0) as [| _]; [contradiction |].
    cbn [bind].
    destruct (Z.eqb_spec (Z.rem h interval) 0) as [Hrem | Hrem];
      [| destruct (Z.eqb_spec bits nProofOfWorkLimit) as [Hbits | Hbits]];
      cbn [negb andb].
    + exists [], (mkBlockIndex (Some prev) h t bits w), (ancestors prev).
      repeat split; auto.
      right. left. cbn [nHeight]. apply Z.rem_divide; assumption.
    + destruct IH as (skipped & stop & rest & Hanc & Hall & Hstop & Hroot & Hres).
      exists (mkBlockIndex (Some prev) h t bits w :: skipped), stop, rest.
      repeat split; auto.
      * cbn [ancestors app]. rewrite Hanc. reflexivity.
      * constructor; [| exact Hall].
        unfold specialMinDifficulty. cbn [pprev nHeight nBits].
        repeat split; [discriminate | | exact Hbits].
        intros Hdiv. apply Hrem. apply Z.rem_divide; assumption.
    + exists [], (mkBlockIndex (Some prev) h t bits w), (ancestors prev).
      repeat split; auto.
Qed.

(** C6. With [fPowAllowMinDifficultyBlocks] set and the genesis guard
    passed: when the candidate's time stamp is more than twice
    [nPowTargetSpacing] after the tip's, [GetNextWorkRequired] returns the
    compact encoding of [powLimit]; otherwise it walks back from the tip
    over the entries that have a predecessor, are not at a multiple of the
    adjustment interval and carry the compact [powLimit] target, and
    returns the [nBits] of the entry where the walk stops, which, unless it
    is an entry without predecessor at a height off the interval, breaks
    one of the latter two conditions. *)
Theorem testnet_min_difficulty_rule
    (tip : CBlockIndex) (pblock : CBlockHeader) (params : Params) :
  fPowAllowMinDifficultyBlocks params = true ->
  160 <= candidateHeight tip ->
  Int.in_int64 (nPowTargetSpacing params * 2) ->
  Int.in_int64 (GetBlockTime tip + nPowTargetSpacing params * 2) ->
  (2 * nPowTargetSpacing params < header_GetBlockTime pblock - GetBlockTime tip ->
   GetNextWorkRequired (Some tip) pblock params = Some (GetCompact (powLimit params)))
  /\ (header_GetBlockTime pblock - GetBlockTime tip <= 2 * nPowTargetSpacing params ->
      DifficultyAdjustmentInterval params <> 0 ->
      exists skipped stop rest,
        ancestors tip = skipped ++ stop :: rest
        /\ Forall (specialMinDifficulty (DifficultyAdjustmentInterval params)
                     (GetCompact (powLimit params))) skipped
        /\ ~ specialMinDifficulty (DifficultyAdjustmentInterval params)
               (GetCompact (powLimit params)) stop
        /\ GetNextWorkRequired (Some tip) pblock params = Some (nBits stop)
        /\ (pprev stop <> None \/ nHeight (rootOf tip) = 0 ->
            (DifficultyAdjustmentInterval params | nHeight stop)
            \/ nBits stop <> GetCompact (powLimit params))).
Proof.
  intros Hallow Hguard Hsp Hsum.
  unfold GetNextWorkRequired.
  change nAveragingInterval1 with 160.
  destruct (Z.ltb_spec (candidateHeight tip) 160) as [Hlow | _]; [lia |].
  rewrite Hallow.
  rewrite (to_int64_small _ Hsp), (to_int64_small _ Hsum).
  split.
  - intros Hlate.
    destruct (Z.ltb_spec (GetBlockTime tip + nPowTargetSpacing params * 2)
                (header_GetBlockTime pblock)); [reflexivity | lia].
  - intros Hsoon Hnz.
    destruct (Z.ltb_spec (GetBlockTime tip + nPowTargetSpacing params * 2)
                (header_GetBlockTime pblock)); [lia |].
    destruct (lastNonSpecial_stops (DifficultyAdjustmentInterval params)
                (GetCompact (powLimit params)) Hnz tip)
      as (skipped & stop & rest & Hanc & Hall & Hstop & Hroot & Hres).
    exists skipped, stop, rest.
    split; [exact Hanc | split; [exact Hall | split; [| split]]].
    + unfold specialMinDifficulty. intros (Hp & Hd & Hb).
      destruct Hstop as [Hs | [Hs | Hs]]; contradiction.
    + rewrite Hres. reflexivity.
    + intros Hwf.
      destruct Hstop as [Hs | [Hs | Hs]]; [| left; exact Hs | right; exact Hs].
      destruct Hwf as [Hp | Hzero]; [contradiction |].
      left. rewrite <- (rootOf_no_predecessor stop Hs), Hroot, Hzero.
      apply Z.divide_0_r.
Qed.

Lemma testnet_min_difficulty_rule_witness :
  GetNextWorkRequired (Some (sampleChain 203))
      (mkBlockHeader (1380000000 + 45 * 203 + 91)) testnetParams
    = Some (GetCompact (powLimit testnetParams))
  /\ exists stop,
       GetNextWorkRequired (Some (sampleChain 203))
           (mkBlockHeader (1380000000 + 45 * 203 + 90)) testnetParams
         = Some (nBits stop)
       /\ ((DifficultyAdjustmentInterval testnetParams | nHeight stop)
           \/ nBits stop <> GetCompact (powLimit testnetParams)).
Proof.
  split.
  - apply (proj1 (testnet_min_difficulty_rule (sampleChain 203)
                    (mkBlockHeader (1380000000 + 45 * 203 + 91)) testnetParams
                    eq_refl ltac:(vm_compute; discriminate)
                    ltac:(unfold Int.in_int64; simpl; lia)
                    ltac:(unfold Int.in_int64; simpl; lia))).
    simpl. lia.
  - destruct (proj2 (testnet_min_difficulty_rule (sampleChain 203)
                       (mkBlockHeader (1380000000 + 45 * 203 + 90)) testnetParams
                       eq_refl ltac:(vm_compute; discriminate)
                       ltac:(unfold Int.in_int64; simpl; lia)
                       ltac:(unfold Int.in_int64; simpl; lia))
                ltac:(simpl; lia) ltac:(simpl; lia))
      as (skipped & stop & rest & _ & _ & _ & Hres & Hbreak).
    exists stop. split; [exact Hres |].
    apply Hbreak. right. vm_compute. reflexivity.
Defined.

(** * Further properties of [pow.cpp] *)

(** ** The averaging window of [GetNextWorkRequired] *)

Lemma eraAveragingInterval_cases (pindexLast : CBlockIndex) :
  eraAveragingInterval pindexLast =
    if candidateHeight pindexLast <? 32000 then 160 else 8.
Proof.
  unfold eraAveragingInterval.
  change nHeightVer3 with 90000. change nHeightVer2 with 32000.
  destruct (Z.leb_spec 90000 (candidateHeight pindexLast));
    destruct (Z.leb_spec 32000 (candidateHeight pindexLast));
    destruct (Z.ltb_spec (candidateHeight pindexLast) 32000);
    try lia; reflexivity.
Qed.

(** X1. The era selection is written twice, at lines 84-98 and at lines
    118-138.  The two agree: the averaging timespan of the retarget is the
    window length of the walk times the 45-second spacing, in every era,
    and the window (160 or 8 blocks) never exceeds the 160 blocks that the
    genesis guard asks for. *)
Theorem window_and_timespan_agree (pindexLast : CBlockIndex) :
  snd (eraTimespans pindexLast) = eraAveragingInterval pindexLast * nTargetSpacing
  /\ eraAveragingInterval pindexLast
       = (if candidateHeight pindexLast <? nHeightVer2 then 160 else 8)
  /\ 1 <= eraAveragingInterval pindexLast <= nAveragingInterval1.
Proof.
  rewrite eraTimespans_cases, eraAveragingInterval_cases.
  change nHeightVer2 with 32000. change nAveragingInterval1 with 160.
  change nTargetSpacing with 45.
  destruct (Z.ltb_spec (candidateHeight pindexLast) 32000);
    [| destruct (Z.ltb_spec (candidateHeight pindexLast) 90000)];
    cbn [snd]; repeat split; lia.
Qed.

Lemma goBack_null (n : nat) : goBack n None = None.
Proof. destruct n; reflexivity. Qed.

(** [n] steps of the loop of lines 102-103 reach the [n]-th ancestor. *)
Lemma goBack_nth_ancestor (n : nat) :
  forall b : CBlockIndex, goBack n (Some b) = nth_error (ancestors b) n.
Proof.
  induction n as [| n IH]; intros [[prev |] h t bits w]; try reflexivity.
  - cbn [goBack pprev ancestors nth_error]. apply IH.
  - cbn [goBack pprev ancestors nth_error]. rewrite goBack_null.
    destruct n; reflexivity.
Qed.

Lemma CalculateNextWorkRequired_returns
    (pindexLast : CBlockIndex) (nFirstBlockTime : Z) (params : Params) :
  CalculateNextWorkRequired pindexLast nFirstBlockTime params <> None.
Proof.
  destruct (fPowNoRetargeting params) eqn:Hre.
  - unfold CalculateNextWorkRequired. rewrite Hre. discriminate.
  - rewrite (CalculateNextWorkRequired_retarget _ _ _ Hre). discriminate.
Qed.

(** X2. The main-network branch, lines 82-106.  Past the genesis guard and
    without the test-network rule, [GetNextWorkRequired] hands the tip and
    the time of its ancestor [window - 1] links back to
    [CalculateNextWorkRequired], whatever the candidate header; it fails
    the assertion of line 104 exactly when the view holds fewer than
    [window] entries, and that also when retargeting is disabled. *)
Theorem GetNextWorkRequired_window
    (tip : CBlockIndex) (pblock : CBlockHeader) (params : Params) :
  fPowAllowMinDifficultyBlocks params = false ->
  160 <= candidateHeight tip ->
  (forall first,
      nth_error (ancestors tip) (Z.to_nat (eraAveragingInterval tip - 1)) = Some first ->
      GetNextWorkRequired (Some tip) pblock params
        = CalculateNextWorkRequired tip (GetBlockTime first) params
      /\ (fPowNoRetargeting params = true ->
          GetNextWorkRequired (Some tip) pblock params = Some (nBits tip)))
  /\ (GetNextWorkRequired (Some tip) pblock params = None <->
      (List.length (ancestors tip) < Z.to_nat (eraAveragingInterval tip))%nat).
Proof.
  intros Hmain Hguard.
  unfold GetNextWorkRequired.
  change nAveragingInterval1 with 160.
  destruct (Z.ltb_spec (candidateHeight tip) 160) as [Hlow | _]; [lia |].
  rewrite Hmain, goBack_nth_ancestor.
  destruct (window_and_timespan_agree tip) as (_ & _ & Hw).
  split.
  - intros first Hfirst. rewrite Hfirst. split; [reflexivity |].
    intros Hre. unfold CalculateNextWorkRequired. rewrite Hre. reflexivity.
  - destruct (nth_error (ancestors tip) (Z.to_nat (eraAveragingInterval tip - 1)))
      as [first |] eqn:Hnth.
    + split.
      * intros Hnone. exfalso.
        exact (CalculateNextWorkRequired_returns _ _ _ Hnone).
      * intros Hshort. exfalso.
        assert (Hsome : nth_error (ancestors tip)
                          (Z.to_nat (eraAveragingInterval tip - 1)) <> None)
          by (rewrite Hnth; discriminate).
        apply nth_error_Some in Hsome. lia.
    + apply nth_error_None in Hnth. split; [intros _; lia | reflexivity].
Qed.

Lemma GetNextWorkRequired_window_witness :
  GetNextWorkRequired (Some (scheduleChain 32050 10)) (mkBlockHeader 0) mainParams
    = CalculateNextWorkRequired (scheduleChain 32050 10)
        (GetBlockTime (scheduleChain 32043 3)) mainParams
  /\ (GetNextWorkRequired (Some (scheduleChain 32050 6)) (mkBlockHeader 0) mainParams = None
      <-> (List.length (ancestors (scheduleChain 32050 6))
           < Z.to_nat (eraAveragingInterval (scheduleChain 32050 6)))%nat).
Proof.
  split.
  - apply (proj1 (GetNextWorkRequired_window (scheduleChain 32050 10)
                    (mkBlockHeader 0) mainParams eq_refl
                    ltac:(vm_compute; discriminate))).
    vm_compute. reflexivity.
  - apply (proj2 (GetNextWorkRequired_window (scheduleChain 32050 6)
                    (mkBlockHeader 0) mainParams eq_refl
                    ltac:(vm_compute; discriminate))).
Defined.

Example GetNextWorkRequired_seven_entries_assert :
  GetNextWorkRequired (Some (scheduleChain 32050 6)) (mkBlockHeader 0) mainParams = None
  /\ GetNextWorkRequired (Some (scheduleChain 32050 7)) (mkBlockHeader 0) mainParams
     <> None.
Proof. split; vm_compute; [reflexivity | discriminate]. Qed.

(** ** Consistent chain views *)

Lemma wfChain_height_nonneg (b : CBlockIndex) : wfChain b -> 0 <= nHeight b.
Proof.
  induction b as [h t bits w | prev h t bits w IH] using chain_ind;
    cbn [wfChain nHeight].
  - lia.
  - intros [Hh Hwf]. specialize (IH Hwf). lia.
Qed.

Lemma wfChain_length (b : CBlockIndex) :
  wfChain b -> Z.of_nat (List.length (ancestors b)) = nHeight b + 1.
Proof.
  induction b as [h t bits w | prev h t bits w IH] using chain_ind;
    cbn [wfChain nHeight ancestors List.length].
  - lia.
  - intros [Hh Hwf]. specialize (IH Hwf). lia.
Qed.

Lemma lastNonSpecial_returns (interval nProofOfWorkLimit : Z) (b : CBlockIndex) :
  interval <> 0 -> lastNonSpecial interval nProofOfWorkLimit b <> None.
Proof.
  intros Hnz.
  destruct (lastNonSpecial_stops interval nProofOfWorkLimit Hnz b)
    as (_ & stop & _ & _ & _ & _ & _ & Hres).
  rewrite Hres. discriminate.
Qed.

(** X3. On a chain view whose heights are consistent with its links (the
    root at height 0, each entry one above its predecessor) the assertion
    of line 104 cannot fail: past the genesis guard the view holds at least
    160 entries, enough for either window.  [GetNextWorkRequired] then
    always returns a target, the test-network walk included as long as the
    adjustment interval it divides by is not zero. *)
Theorem GetNextWorkRequired_returns_on_consistent_chain
    (tip : CBlockIndex) (pblock : CBlockHeader) (params : Params) :
  wfChain tip ->
  nHeight tip + 1 < 2 ^ 31 ->
  (fPowAllowMinDifficultyBlocks params = true ->
   DifficultyAdjustmentInterval params <> 0) ->
  exists nBitsNext, GetNextWorkRequired (Some tip) pblock params = Some nBitsNext.
Proof.
  intros Hwf Hint Hinterval.
  pose proof (wfChain_height_nonneg tip Hwf) as Hnn.
  pose proof (wfChain_length tip Hwf) as Hlen.
  assert (Hcand : candidateHeight tip = nHeight tip + 1).
  { unfold candidateHeight. apply to_int32_small. unfold Int.in_int32. lia. }
  unfold GetNextWorkRequired.
  change nAveragingInterval1 with 160.
  destruct (Z.ltb_spec (candidateHeight tip) 160) as [Hlow | Hguard];
    [eexists; reflexivity |].
  destruct (fPowAllowMinDifficultyBlocks params) eqn:Hallow.
  - destruct (Int.to_int64
                (GetBlockTime tip + Int.to_int64 (nPowTargetSpacing params * 2))
              <? header_GetBlockTime pblock); [eexists; reflexivity |].
    destruct (lastNonSpecial (DifficultyAdjustmentInterval params)
                (GetCompact (powLimit params)) tip) as [pindex |] eqn:Hwalk.
    + eexists. reflexivity.
    + exfalso. exact (lastNonSpecial_returns _ _ _ (Hinterval eq_refl) Hwalk).
  - rewrite goBack_nth_ancestor.
    destruct (window_and_timespan_agree tip) as (_ & _ & Hw).
    change nAveragingInterval1 with 160 in Hw.
    destruct (nth_error (ancestors tip) (Z.to_nat (eraAveragingInterval tip - 1)))
      as [first |] eqn:Hnth.
    + destruct (CalculateNextWorkRequired tip (GetBlockTime first) params)
        as [v |] eqn:Hcalc.
      * exists v. reflexivity.
      * exfalso. exact (CalculateNextWorkRequired_returns _ _ _ Hcalc).
    + apply nth_error_None in Hnth. lia.
Qed.

Lemma GetNextWorkRequired_returns_on_consistent_chain_witness :
  (exists nBitsNext,
     GetNextWorkRequired (Some (sampleChain 203)) (mkBlockHeader 1380009180) sampleParams
       = Some nBitsNext)
  /\ (exists nBitsNext,
        GetNextWorkRequired (Some (sampleChain 203)) (mkBlockHeader 1380009180)
          testnetParams
          = Some nBitsNext).
Proof.
  split.
  - apply GetNextWorkRequired_returns_on_consistent_chain.
    + vm_compute. repeat split.
    + simpl. lia.
    + intros _. simpl. lia.
  - apply GetNextWorkRequired_returns_on_consistent_chain.
    + vm_compute. repeat split.
    + simpl. lia.
    + intros _. simpl. lia.
Defined.

(** ** The size of a retarget step *)

Lemma eraTimespans_shape (pindexLast : CBlockIndex) :
  exists lo hi T,
    eraTimespans pindexLast = (lo, hi, T)
    /\ ((lo, hi, T) = (7128, 7920, 7200)
        \/ (lo, hi, T) = (356, 363, 360)
        \/ (lo, hi, T) = (356, 370, 360)).
Proof.
  rewrite eraTimespans_cases.
  destruct (candidateHeight pindexLast <? 32000);
    [| destruct (candidateHeight pindexLast <? 90000)];
    eexists; eexists; eexists; (split; [reflexivity | tauto]).
Qed.

(** Below [2^243] the 256-bit product of the retarget does not wrap. *)
Lemma CalculateNextWorkRequired_exact
    (pindexLast : CBlockIndex) (nFirstBlockTime : Z) (params : Params) :
  fPowNoRetargeting params = false ->
  magnitude (SetCompact (nBits pindexLast)) < 2 ^ 243 ->
  CalculateNextWorkRequired pindexLast nFirstBlockTime params =
    Some (GetCompact
            (Z.min (powLimit params)
               (magnitude (SetCompact (nBits pindexLast))
                  * nActualTimespanLimited pindexLast nFirstBlockTime
                / snd (eraTimespans pindexLast)))).
Proof.
  intros Hre Hsmall.
  rewrite (CalculateNextWorkRequired_retarget _ _ _ Hre).
  pose proof (SetCompact_magnitude_range (nBits pindexLast)) as Hold.
  pose proof (nActualTimespanLimited_bounds pindexLast nFirstBlockTime) as Ht.
  unfold Arith256.mul. rewrite norm_small; [reflexivity |].
  unfold Arith256.modulus. split; [nia |].
  apply Z.le_lt_trans with (2 ^ 243 * 7920); [nia | reflexivity].
Qed.

(** X4. One retarget moves the target by a bounded factor.  For a tip target
    [old] below [2^243] the target that [CalculateNextWorkRequired] encodes
    is [min(powLimit, old * t / T)] with [t] in the era's interval
    [[lo, hi]]: it lies between [min(powLimit, old * lo / T)] and
    [min(powLimit, old * hi / T)], hence never above [old * 11 / 10], never
    above [powLimit], and never below [old * 356 / 360] unless capped by
    [powLimit], whatever the time stamps are. *)
Theorem retarget_step_is_bounded
    (pindexLast : CBlockIndex) (nFirstBlockTime : Z) (params : Params) :
  fPowNoRetargeting params = false ->
  magnitude (SetCompact (nBits pindexLast)) < 2 ^ 243 ->
  exists newTarget,
    CalculateNextWorkRequired pindexLast nFirstBlockTime params
      = Some (GetCompact newTarget)
    /\ newTarget =
         Z.min (powLimit params)
           (magnitude (SetCompact (nBits pindexLast))
              * nActualTimespanLimited pindexLast nFirstBlockTime
            / snd (eraTimespans pindexLast))
    /\ Z.min (powLimit params)
         (magnitude (SetCompact (nBits pindexLast))
            * fst (fst (eraTimespans pindexLast)) / snd (eraTimespans pindexLast))
       <= newTarget
       <= Z.min (powLimit params)
            (magnitude (SetCompact (nBits pindexLast))
               * snd (fst (eraTimespans pindexLast)) / snd (eraTimespans pindexLast))
    /\ newTarget <= powLimit params
    /\ newTarget <= magnitude (SetCompact (nBits pindexLast)) * 11 / 10
    /\ (newTarget = powLimit params
        \/ magnitude (SetCompact (nBits pindexLast)) * 356 / 360 <= newTarget).
Proof.
  intros Hre Hsmall.
  eexists. split; [apply CalculateNextWorkRequired_exact; assumption |].
  split; [reflexivity |].
  pose proof (SetCompact_magnitude_range (nBits pindexLast)) as Hold.
  pose proof (nActualTimespanLimited_clamp pindexLast nFirstBlockTime) as Hclamp.
  destruct (eraTimespans_shape pindexLast) as (lo & hi & T & Hera & Hshape).
  rewrite Hera in *. cbn [fst snd] in *.
  set (old := magnitude (SetCompact (nBits pindexLast))) in *.
  set (t := nActualTimespanLimited pindexLast nFirstBlockTime) in *.
  assert (HT : 0 < T /\ lo <= t <= hi /\ 356 * T <= 360 * lo /\ 10 * hi <= 11 * T).
  { destruct Hshape as [H | [H | H]]; inversion H; subst; lia. }
  destruct HT as (HT & Ht & Hlo & Hhi).
  assert (Hdlo : old * lo / T <= old * t / T) by (apply Z.div_le_mono; nia).
  assert (Hdhi : old * t / T <= old * hi / T) by (apply Z.div_le_mono; nia).
  assert (Hup : old * t / T <= old * 11 / 10).
  { apply Z.div_le_lower_bound; [lia |].
    pose proof (Z.mul_div_le (old * t) T HT). nia. }
  assert (Hdown : old * 356 / 360 <= old * t / T).
  { apply Z.div_le_lower_bound; [lia |].
    pose proof (Z.mul_div_le (old * 356) 360 ltac:(lia)). nia. }
  repeat split; lia.
Qed.

Lemma retarget_step_is_bounded_witness :
  exists newTarget,
    CalculateNextWorkRequired tipEra3 1380000000 sampleParams
      = Some (GetCompact newTarget)
    /\ newTarget =
         Z.min (powLimit sampleParams)
           (magnitude (SetCompact (nBits tipEra3))
              * nActualTimespanLimited tipEra3 1380000000
            / snd (eraTimespans tipEra3))
    /\ Z.min (powLimit sampleParams)
         (magnitude (SetCompact (nBits tipEra3))
            * fst (fst (eraTimespans tipEra3)) / snd (eraTimespans tipEra3))
       <= newTarget
       <= Z.min (powLimit sampleParams)
            (magnitude (SetCompact (nBits tipEra3))
               * snd (fst (eraTimespans tipEra3)) / snd (eraTimespans tipEra3))
    /\ newTarget <= powLimit sampleParams
    /\ newTarget <= magnitude (SetCompact (nBits tipEra3)) * 11 / 10
    /\ (newTarget = powLimit sampleParams
        \/ magnitude (SetCompact (nBits tipEra3)) * 356 / 360 <= newTarget).
Proof.
  apply (retarget_step_is_bounded tipEra3 1380000000 sampleParams).
  - reflexivity.
  - vm_compute. reflexivity.
Defined.

(** X5. A window that took exactly the averaging timespan of its era leaves
    the target as it is: for a tip target [old] below [2^243] and not above
    [powLimit], the result is the compact encoding of [old] itself. *)
Theorem retarget_unchanged_at_nominal_timespan
    (pindexLast : CBlockIndex) (nFirstBlockTime : Z) (params : Params) :
  fPowNoRetargeting params = false ->
  GetBlockTime pindexLast - nFirstBlockTime = snd (eraTimespans pindexLast) ->
  magnitude (SetCompact (nBits pindexLast)) < 2 ^ 243 ->
  magnitude (SetCompact (nBits pindexLast)) <= powLimit params ->
  CalculateNextWorkRequired pindexLast nFirstBlockTime params
    = Some (GetCompact (magnitude (SetCompact (nBits pindexLast)))).
Proof.
  intros Hre Hnominal Hsmall Hcap.
  rewrite (CalculateNextWorkRequired_exact _ _ _ Hre Hsmall).
  pose proof (nActualTimespanLimited_clamp pindexLast nFirstBlockTime) as Hclamp.
  rewrite Hnominal in Hclamp.
  destruct (eraTimespans_shape pindexLast) as (lo & hi & T & Hera & Hshape).
  rewrite Hera in *. cbn [fst snd] in *.
  assert (HT : 0 < T /\ lo <= T <= hi /\ Int.in_int64 T).
  { unfold Int.in_int64.
    destruct Hshape as [H | [H | H]]; inversion H; subst; lia. }
  destruct HT as (HT & Hin & Hrange).
  rewrite (to_int64_small T Hrange) in Hclamp.
  replace (nActualTimespanLimited pindexLast nFirstBlockTime) with T by lia.
  rewrite Z.div_mul by lia.
  do 2 f_equal. lia.
Qed.

Lemma retarget_unchanged_at_nominal_timespan_witness :
  CalculateNextWorkRequired (scheduleChain 32050 10) (1380000000 + 45 * 32050 - 360)
      mainParams
    = Some (GetCompact (magnitude (SetCompact (nBits (scheduleChain 32050 10))))).
Proof.
  apply retarget_unchanged_at_nominal_timespan.
  - reflexivity.
  - vm_compute. reflexivity.
  - vm_compute. reflexivity.
  - vm_compute. discriminate.
Defined.

Lemma GetNextWorkRequired_main_branch
    (tip : CBlockIndex) (pblock : CBlockHeader) (params : Params) :
  fPowAllowMinDifficultyBlocks params = false ->
  160 <= candidateHeight tip ->
  GetNextWorkRequired (Some tip) pblock params =
    match nth_error (ancestors tip) (Z.to_nat (eraAveragingInterval tip - 1)) with
    | Some first => CalculateNextWorkRequired tip (GetBlockTime first) params
    | None => None
    end.
Proof.
  intros Hmain Hguard. unfold GetNextWorkRequired.
  change nAveragingInterval1 with 160.
  destruct (Z.ltb_spec (candidateHeight tip) 160) as [Hlow | _]; [lia |].
  rewrite Hmain, goBack_nth_ancestor. reflexivity.
Qed.

(** X6. The walk of lines 101-103 goes back [window - 1] links, so the time it
    measures spans [window - 1] block intervals, while the retarget divides
    by [window] intervals.  A chain whose blocks come exactly every 45
    seconds therefore does not keep its target: in era 1 the target is
    multiplied by [7155/7200], in eras 2 and 3 the measured 315 seconds are
    below the floor and the target is multiplied by [356/360]; either way
    the new target is strictly below the old one. *)
Theorem on_schedule_chain_lowers_target
    (tip first : CBlockIndex) (pblock : CBlockHeader) (params : Params) :
  fPowAllowMinDifficultyBlocks params = false ->
  fPowNoRetargeting params = false ->
  160 <= candidateHeight tip ->
  nth_error (ancestors tip) (Z.to_nat (eraAveragingInterval tip - 1)) = Some first ->
  GetBlockTime tip - GetBlockTime first
    = (eraAveragingInterval tip - 1) * nTargetSpacing ->
  0 < magnitude (SetCompact (nBits tip)) < 2 ^ 243 ->
  exists newTarget,
    GetNextWorkRequired (Some tip) pblock params = Some (GetCompact newTarget)
    /\ newTarget =
         Z.min (powLimit params)
           (if candidateHeight tip <? 32000
            then magnitude (SetCompact (nBits tip)) * 7155 / 7200
            else magnitude (SetCompact (nBits tip)) * 356 / 360)
    /\ newTarget < magnitude (SetCompact (nBits tip)).
Proof.
  intros Hmain Hre Hguard Hfirst Hsched [Hpos Hsmall].
  rewrite (GetNextWorkRequired_main_branch _ _ _ Hmain Hguard), Hfirst.
  rewrite (CalculateNextWorkRequired_exact _ _ _ Hre Hsmall).
  pose proof (nActualTimespanLimited_clamp tip (GetBlockTime first)) as Hclamp.
  rewrite Hsched in Hclamp.
  rewrite eraAveragingInterval_cases in Hclamp.
  rewrite eraTimespans_cases in *.
  change nTargetSpacing with 45 in Hclamp.
  set (old := magnitude (SetCompact (nBits tip))) in *.
  destruct (Z.ltb_spec (candidateHeight tip) 32000) as [He1 | He1].
  - cbn [fst snd] in *.
    rewrite (to_int64_small ((160 - 1) * 45)) in Hclamp
      by (unfold Int.in_int64; lia).
    replace (nActualTimespanLimited tip (GetBlockTime first)) with 7155 by lia.
    eexists. split; [reflexivity | split; [reflexivity |]].
    enough (old * 7155 / 7200 < old) by lia.
    apply Z.div_lt_upper_bound; lia.
  - rewrite (to_int64_small ((8 - 1) * 45)) in Hclamp
      by (unfold Int.in_int64; lia).
    assert (Ht : nActualTimespanLimited tip (GetBlockTime first) = 356
                 /\ snd (if candidateHeight tip <? 90000
                         then (356, 363, 360) else (356, 370, 360)) = 360).
    { destruct (candidateHeight tip <? 90000); cbn [fst snd] in *; lia. }
    destruct Ht as [Ht HT]. rewrite Ht, HT.
    eexists. split; [reflexivity | split; [reflexivity |]].
    enough (old * 356 / 360 < old) by lia.
    apply Z.div_lt_upper_bound; lia.
Qed.

Lemma on_schedule_chain_lowers_target_witness :
  exists newTarget,
    GetNextWorkRequired (Some (scheduleChain 32050 10)) (mkBlockHeader 0) mainParams
      = Some (GetCompact newTarget)
    /\ newTarget =
         Z.min (powLimit mainParams)
           (if candidateHeight (scheduleChain 32050 10) <? 32000
            then magnitude (SetCompact (nBits (scheduleChain 32050 10))) * 7155 / 7200
            else magnitude (SetCompact (nBits (scheduleChain 32050 10))) * 356 / 360)
    /\ newTarget < magnitude (SetCompact (nBits (scheduleChain 32050 10))).
Proof.
  apply (on_schedule_chain_lowers_target (scheduleChain 32050 10)
           (scheduleChain 32043 3) (mkBlockHeader 0) mainParams).
  - reflexivity.
  - reflexivity.
  - vm_compute. discriminate.
  - vm_compute. reflexivity.
  - vm_compute. reflexivity.
  - vm_compute. split; reflexivity.
Defined.

(** X7. The longer the window took, the easier the next target: for a tip
    target below [2^243], a later first-block time (a shorter measured
    timespan) never gives a larger target. *)
Theorem retarget_monotone_in_timespan
    (pindexLast : CBlockIndex) (first1 first2 : Z) (params : Params) :
  fPowNoRetargeting params = false ->
  magnitude (SetCompact (nBits pindexLast)) < 2 ^ 243 ->
  Int.in_int64 (GetBlockTime pindexLast - first1) ->
  Int.in_int64 (GetBlockTime pindexLast - first2) ->
  first1 <= first2 ->
  exists target1 target2,
    CalculateNextWorkRequired pindexLast first1 params = Some (GetCompact target1)
    /\ CalculateNextWorkRequired pindexLast first2 params = Some (GetCompact target2)
    /\ target1 =
         Z.min (powLimit params)
           (magnitude (SetCompact (nBits pindexLast))
              * nActualTimespanLimited pindexLast first1
            / snd (eraTimespans pindexLast))
    /\ target2 =
         Z.min (powLimit params)
           (magnitude (SetCompact (nBits pindexLast))
              * nActualTimespanLimited pindexLast first2
            / snd (eraTimespans pindexLast))
    /\ nActualTimespanLimited pindexLast first2
         <= nActualTimespanLimited pindexLast first1
    /\ target2 <= target1.
Proof.
  intros Hre Hsmall Hin1 Hin2 Hle.
  eexists. eexists.
  split; [apply CalculateNextWorkRequired_exact; assumption |].
  split; [apply CalculateNextWorkRequired_exact; assumption |].
  split; [reflexivity | split; [reflexivity |]].
  pose proof (SetCompact_magnitude_range (nBits pindexLast)) as Hold.
  pose proof (nActualTimespanLimited_clamp pindexLast first1) as Hc1.
  pose proof (nActualTimespanLimited_clamp pindexLast first2) as Hc2.
  rewrite (to_int64_small _ Hin1) in Hc1.
  rewrite (to_int64_small _ Hin2) in Hc2.
  destruct (eraTimespans_shape pindexLast) as (lo & hi & T & Hera & Hshape).
  rewrite Hera in *. cbn [fst snd] in *.
  assert (HT : 0 < T) by (destruct Hshape as [H | [H | H]]; inversion H; lia).
  assert (Ht : nActualTimespanLimited pindexLast first2
               <= nActualTimespanLimited pindexLast first1) by lia.
  split; [exact Ht |].
  assert (magnitude (SetCompact (nBits pindexLast))
            * nActualTimespanLimited pindexLast first2 / T
          <= magnitude (SetCompact (nBits pindexLast))
               * nActualTimespanLimited pindexLast first1 / T)
    by (apply Z.div_le_mono; nia).
  lia.
Qed.

Lemma retarget_monotone_in_timespan_witness :
  exists target1 target2,
    CalculateNextWorkRequired tipEra1 1380000000 sampleParams = Some (GetCompact target1)
    /\ CalculateNextWorkRequired tipEra1 1380000500 sampleParams = Some (GetCompact target2)
    /\ target1 =
         Z.min (powLimit sampleParams)
           (magnitude (SetCompact (nBits tipEra1))
              * nActualTimespanLimited tipEra1 1380000000
            / snd (eraTimespans tipEra1))
    /\ target2 =
         Z.min (powLimit sampleParams)
           (magnitude (SetCompact (nBits tipEra1))
              * nActualTimespanLimited tipEra1 1380000500
            / snd (eraTimespans tipEra1))
    /\ nActualTimespanLimited tipEra1 1380000500
         <= nActualTimespanLimited tipEra1 1380000000
    /\ target2 <= target1.
Proof.
  apply (retarget_monotone_in_timespan tipEra1 1380000000 1380000500 sampleParams).
  - reflexivity.
  - vm_compute. reflexivity.
  - unfold Int.in_int64. simpl. lia.
  - unfold Int.in_int64. simpl. lia.
  - lia.
Defined.

(** ** What an accepted proof of work implies *)

Lemma CheckProofOfWork_true (hash nBits : Z) (params : Params) :
  CheckProofOfWork hash nBits params = true <->
  validTarget (SetCompact nBits) = true
  /\ hash <= magnitude (SetCompact nBits) <= powLimit params.
Proof.
  unfold CheckProofOfWork, CheckProofOfWork_log, validTarget, error.
  generalize (SetCompact nBits). intros [t neg ovf].
  cbn [magnitude fNegative fOverflow].
  destruct neg, ovf;
    destruct (Z.eqb_spec t 0);
    destruct (Z.ltb_spec (powLimit params) t);
    destruct (Z.ltb_spec t hash);
    cbn [orb andb negb fst snd];
    (split; [intros Hacc; try discriminate Hacc; repeat split; try reflexivity; lia
            | intros (Hv & Hh & Hl); try discriminate Hv; try reflexivity; lia]).
Qed.

(** X8. A hash that [CheckProofOfWork] accepts is at most the decoded target,
    which is itself positive and at most [powLimit]; and a block carrying
    the same compact target then contributes positive work in
    [GetBlockProof]. *)
Theorem accepted_hash_is_within_limit
    (hash bits : Z) (params : Params) (block : CBlockIndex) :
  CheckProofOfWork hash bits params = true ->
  nBits block = bits ->
  hash <= magnitude (SetCompact bits)
  /\ 0 < magnitude (SetCompact bits) <= powLimit params
  /\ hash <= powLimit params
  /\ exists work, GetBlockProof block = Some work /\ 0 < work.
Proof.
  intros Hok Hbits.
  apply CheckProofOfWork_true in Hok. destruct Hok as (Hv & Hh & Hl).
  pose proof (SetCompact_magnitude_range bits) as Hr.
  pose proof (SetCompact_magnitude_not_max bits) as Hm.
  pose proof (proj1 (validTarget_true _) Hv) as (_ & _ & Hnz).
  repeat split; try lia.
  exists (Arith256.modulus / (magnitude (SetCompact bits) + 1)).
  split.
  - rewrite GetBlockProof_closed, Hbits, Hv. reflexivity.
  - destruct (work_expression (magnitude (SetCompact bits))); lia.
Qed.

Lemma accepted_hash_is_within_limit_witness :
  2 ^ 200 <= magnitude (SetCompact 0x1e0fffff)
  /\ 0 < magnitude (SetCompact 0x1e0fffff) <= powLimit sampleParams
  /\ 2 ^ 200 <= powLimit sampleParams
  /\ exists work, GetBlockProof tipEra1 = Some work /\ 0 < work.
Proof.
  apply (accepted_hash_is_within_limit (2 ^ 200) 0x1e0fffff sampleParams tipEra1).
  - vm_compute. reflexivity.
  - reflexivity.
Defined.

(** X9. Acceptance is monotone: a hash accepted against [nBits] stays accepted
    when the hash gets smaller or the network limit larger. *)
Theorem CheckProofOfWork_monotone
    (hash hash' bits : Z) (params params' : Params) :
  CheckProofOfWork hash bits params = true ->
  hash' <= hash ->
  powLimit params <= powLimit params' ->
  CheckProofOfWork hash' bits params' = true.
Proof.
  intros Hok Hh Hl.
  apply CheckProofOfWork_true in Hok. destruct Hok as (Hv & Hhash & Hlim).
  apply CheckProofOfWork_true. split; [exact Hv | lia].
Qed.

Lemma CheckProofOfWork_monotone_witness :
  CheckProofOfWork 17 0x1e0fffff wideParams = true.
Proof.
  apply (CheckProofOfWork_monotone (2 ^ 200) 17 0x1e0fffff sampleParams wideParams).
  - vm_compute. reflexivity.
  - vm_compute. discriminate.
  - vm_compute. discriminate.
Defined.

(** ** More on [GetBlockProofEquivalentTime] *)

Lemma bits_below_2_63 (r : Z) : 0 <= r < 2 ^ 63 -> Arith256.bits r <= 63.
Proof.
  intros [Hnn Hlt]. unfold Arith256.bits.
  destruct (Z.leb_spec r 0); [lia |].
  assert (Z.log2 r < 63) by (apply Z.log2_lt_pow2; lia). lia.
Qed.

(** X10. The sign of the estimate follows the order of the chain work: it is
    non-negative when [to] has more work than [from], non-positive
    otherwise, and zero when both have the same work. *)
Theorem equivalent_time_sign
    (to from tip : CBlockIndex) (params : Params) (proof : Z) :
  GetBlockProof tip = Some proof -> proof <> 0 ->
  exists t,
    GetBlockProofEquivalentTime to from tip params = Some t
    /\ (nChainWork from < nChainWork to -> 0 <= t)
    /\ (nChainWork to <= nChainWork from -> t <= 0)
    /\ (nChainWork to = nChainWork from -> t = 0).
Proof.
  intros Hproof Hnz.
  pose proof (GetBlockProof_range tip proof Hproof) as Hrange.
  assert (Hpos : 0 < proof) by lia.
  pose proof (saturated_range _ (equivalentTimeMagnitude_nonneg to from params proof Hpos))
    as Hsat.
  rewrite (GetBlockProofEquivalentTime_closed to from tip params proof Hproof Hnz).
  eexists. split; [reflexivity |].
  unfold workSign.
  destruct (Z.ltb_spec (nChainWork from) (nChainWork to)); repeat split; try lia.
  intros Heq.
  unfold equivalentTimeMagnitude. rewrite (workDifference_same to from Heq).
  reflexivity.
Qed.

Lemma equivalent_time_sign_witness :
  exists t,
    GetBlockProofEquivalentTime genesisEntry heavyEntry tipEra1 sampleParams = Some t
    /\ (nChainWork heavyEntry < nChainWork genesisEntry -> 0 <= t)
    /\ (nChainWork genesisEntry <= nChainWork heavyEntry -> t <= 0)
    /\ (nChainWork genesisEntry = nChainWork heavyEntry -> t = 0).
Proof.
  apply (equivalent_time_sign genesisEntry heavyEntry tipEra1 sampleParams 1048577).
  - vm_compute. reflexivity.
  - lia.
Defined.

(** X11. Whole blocks convert to whole spacings: when [to] is ahead of [from]
    by [k] times the work of one block at the tip's difficulty, the
    estimate is [k * nPowTargetSpacing], and its opposite with the
    arguments swapped, as long as the 256-bit product and the 63-bit result
    fit. *)
Theorem equivalent_time_of_whole_blocks
    (to from tip : CBlockIndex) (params : Params) (proof k : Z) :
  GetBlockProof tip = Some proof -> proof <> 0 ->
  0 <= k ->
  0 <= nChainWork from ->
  nChainWork to = nChainWork from + k * proof ->
  nChainWork to < 2 ^ 256 ->
  0 <= nPowTargetSpacing params < 2 ^ 64 ->
  k * proof * nPowTargetSpacing params < 2 ^ 256 ->
  k * nPowTargetSpacing params < 2 ^ 63 ->
  GetBlockProofEquivalentTime to from tip params
    = Some (k * nPowTargetSpacing params)
  /\ GetBlockProofEquivalentTime from to tip params
    = Some (- (k * nPowTargetSpacing params)).
Proof.
  intros Hproof Hnz Hk Hfrom Hto Hwf Hsp Hfit Hres.
  pose proof (GetBlockProof_range tip proof Hproof) as Hrange.
  assert (Hpos : 0 < proof) by lia.
  assert (Hmag : equivalentTimeMagnitude to from params proof
                 = k * nPowTargetSpacing params).
  { unfold equivalentTimeMagnitude.
    assert (Hd : workDifference to from = Arith256.norm (k * proof)).
    { unfold workDifference, Arith256.sub.
      destruct (Z.ltb_spec (nChainWork from) (nChainWork to)).
      - f_equal. lia.
      - assert (k * proof = 0) by nia.
        replace (nChainWork from - nChainWork to) with (k * proof) by lia.
        reflexivity. }
    assert (Hkp : 0 <= k * proof < Arith256.modulus).
    { unfold Arith256.modulus. split; [nia | lia]. }
    rewrite Hd, norm_small by exact Hkp.
    assert (Hu : Int.to_uint64 (nPowTargetSpacing params) = nPowTargetSpacing params).
    { unfold Int.to_uint64. apply Z.mod_small. lia. }
    rewrite Hu. unfold Arith256.mul.
    rewrite norm_small by (unfold Arith256.modulus; nia).
    replace (k * proof * nPowTargetSpacing params)
      with (k * nPowTargetSpacing params * proof) by lia.
    apply Z.div_mul. lia. }
  assert (Hsat : saturated (k * nPowTargetSpacing params) = k * nPowTargetSpacing params).
  { unfold saturated.
    pose proof (bits_below_2_63 (k * nPowTargetSpacing params) ltac:(nia)).
    destruct (Z.ltb_spec 63 (Arith256.bits (k * nPowTargetSpacing params))); lia. }
  rewrite (GetBlockProofEquivalentTime_closed to from tip params proof Hproof Hnz).
  rewrite (GetBlockProofEquivalentTime_closed from to tip params proof Hproof Hnz).
  rewrite <- (equivalentTimeMagnitude_sym to from), Hmag, Hsat.
  unfold workSign.
  destruct (Z.ltb_spec (nChainWork from) (nChainWork to));
    destruct (Z.ltb_spec (nChainWork to) (nChainWork from));
    try nia; split; f_equal; try lia.
  all: assert (k * proof = 0) by nia;
       assert (k = 0) by nia; subst k; lia.
Qed.

Lemma equivalent_time_of_whole_blocks_witness :
  GetBlockProofEquivalentTime tenBlocksAhead genesisEntry tipEra1 sampleParams
    = Some (10 * nPowTargetSpacing sampleParams)
  /\ GetBlockProofEquivalentTime genesisEntry tenBlocksAhead tipEra1 sampleParams
    = Some (- (10 * nPowTargetSpacing sampleParams)).
Proof.
  apply (equivalent_time_of_whole_blocks tenBlocksAhead genesisEntry tipEra1
           sampleParams 1048577 10).
  - vm_compute. reflexivity.
  - lia.
  - lia.
  - simpl. lia.
  - reflexivity.
  - simpl. lia.
  - simpl. lia.
  - simpl. lia.
  - simpl. lia.
Defined.

(** ** The test-network rule never retargets *)

Lemma ancestors_head (b : CBlockIndex) : In b (ancestors b).
Proof. destruct b as [[prev |] h t bits w]; left; reflexivity. Qed.

Lemma lastNonSpecial_in_ancestors (interval nProofOfWorkLimit : Z) :
  forall b stop : CBlockIndex,
    lastNonSpecial interval nProofOfWorkLimit b = Some stop ->
    In stop (ancestors b)
    /\ (stop = b \/ nBits b = nProofOfWorkLimit).
Proof.
  intros b. induction b as [h t bits w | prev h t bits w IH] using chain_ind;
    intros stop Hres.
  - cbn [lastNonSpecial] in Hres. apply Some_inj in Hres. subst stop.
    split; [apply ancestors_head | left; reflexivity].
  - cbn [lastNonSpecial] in Hres. unfold int64_rem in Hres.
    destruct (interval =? 0); [discriminate Hres |].
    cbn [bind] in Hres.
    destruct (Z.eqb_spec (Z.rem h interval) 0) as [Hrem | Hrem];
      [| destruct (Z.eqb_spec bits nProofOfWorkLimit) as [Hbits | Hbits]];
      cbn [negb andb] in Hres.
    + apply Some_inj in Hres. subst stop.
      split; [apply ancestors_head | left; reflexivity].
    + destruct (IH stop Hres) as [Hin _].
      split; [right; exact Hin | right; exact Hbits].
    + apply Some_inj in Hres. subst stop.
      split; [apply ancestors_head | left; reflexivity].
Qed.

(** X12. With [fPowAllowMinDifficultyBlocks] set, [GetNextWorkRequired] returns
    before the retarget of lines 82-106 is reached: whatever it returns is
    the compact [powLimit] or the [nBits] that an entry of the chain
    already carries; when the tip does not carry the compact [powLimit] it
    is that limit or the tip's own [nBits]. *)
Theorem testnet_returns_existing_target
    (tip : CBlockIndex) (pblock : CBlockHeader) (params : Params) (nBitsNext : Z) :
  fPowAllowMinDifficultyBlocks params = true ->
  GetNextWorkRequired (Some tip) pblock params = Some nBitsNext ->
  (nBitsNext = GetCompact (powLimit params)
   \/ exists e, In e (ancestors tip) /\ nBitsNext = nBits e)
  /\ (nBits tip <> GetCompact (powLimit params) ->
      nBitsNext = GetCompact (powLimit params) \/ nBitsNext = nBits tip).
Proof.
  intros Hallow Hres.
  unfold GetNextWorkRequired in Hres. rewrite Hallow in Hres.
  destruct (candidateHeight tip <? nAveragingInterval1);
    [apply Some_inj in Hres; subst nBitsNext; split; left; reflexivity |].
  destruct (Int.to_int64
              (GetBlockTime tip + Int.to_int64 (nPowTargetSpacing params * 2))
            <? header_GetBlockTime pblock);
    [apply Some_inj in Hres; subst nBitsNext; split; left; reflexivity |].
  destruct (lastNonSpecial (DifficultyAdjustmentInterval params)
              (GetCompact (powLimit params)) tip) as [stop |] eqn:Hwalk;
    [| discriminate Hres].
  cbn [bind] in Hres. apply Some_inj in Hres. subst nBitsNext.
  destruct (lastNonSpecial_in_ancestors _ _ _ _ Hwalk) as [Hin Hstop].
  split.
  - right. exists stop. split; [exact Hin | reflexivity].
  - intros Hne. destruct Hstop as [-> | Hlimit]; [right; reflexivity | contradiction].
Qed.

Lemma testnet_returns_existing_target_witness :
  (0x1d00ffff = GetCompact (powLimit testnetParams)
   \/ exists e, In e (ancestors (sampleChain 203)) /\ 0x1d00ffff = nBits e)
  /\ (nBits (sampleChain 203) <> GetCompact (powLimit testnetParams) ->
      0x1d00ffff = GetCompact (powLimit testnetParams)
      \/ 0x1d00ffff = nBits (sampleChain 203)).
Proof.
  apply (testnet_returns_existing_target (sampleChain 203)
           (mkBlockHeader (1380000000 + 45 * 203 + 90)) testnetParams 0x1d00ffff).
  - reflexivity.
  - vm_compute. reflexivity.
Defined.
